(** * BITS-H Pooler: the pool membership and lifecycle engine

    A shallow embedding of the SQLite data layer and of the create / list
    handlers of [pool.py] and [poolpreset.py], with the properties of the
    engine stated and proved over it.

    Conventions.
    - A [datetime] is an integer number of microseconds on the naive local
      time line (counted from 1970-01-01T00:00:00); [timedelta]s are
      differences of such numbers.
    - Every handler reads the clock through [datetime.now()]; the reading is
      an explicit argument [now] of the embedded function.  The handlers that
      read the clock several times while serving one click are given one
      reading.
    - [datetime.fromisoformat] and [datetime.isoformat] belong to the Python
      library.  The engine is parameterised by them; [iso_parse] and
      [iso_format] below are executable instances for the canonical
      [YYYY-MM-DDTHH:MM:SS[.ffffff]] spelling that [isoformat()] emits.
    - The data layer embedded is the branch taken when [USE_SUPABASE] is
      false.  The Supabase branch talks to a remote service and to stored
      procedures whose text is not part of the repository.  Two parts of it
      are embedded: its exception handling in [can_host_create], and the
      Supabase arms of [delete_pool], whose requests are plain selects and
      deletes; there the remote tables are the tables of [db], and the reply
      of the stored procedure is an argument.
    - Text is a sequence of bytes.  [lower], [strip] and the pattern of
      [is_bits_email] are those of Python on ASCII text; what Python does
      with text outside ASCII is said at each definition, and the properties
      that depend on it are stated for ASCII text.
    - A [with get_conn() as con:] block is a transaction: it commits when the
      block ends and rolls back when an exception leaves it.  A function that
      returns [Raise e] therefore leaves the store as it was. *)

From Stdlib Require Import ZArith List String Ascii Bool Lia DecimalString QArith.
From Stdlib Require Import Sorted Permutation.
Import ListNotations.
Local Open Scope string_scope.
Local Open Scope Z_scope.

(** ** Exceptions *)

Inductive exn : Type :=
| IntegrityError   (* sqlite3: UNIQUE or PRIMARY KEY constraint failed *)
| OperationalError (* sqlite3 / network: the statement or request could not be run *)
| ValueError.      (* datetime.fromisoformat on text that is no ISO date *)

Inductive outcome (A : Type) : Type :=
| Return (a : A)
| Raise (e : exn).
Arguments Return {A} a.
Arguments Raise {A} e.

Definition bind {A B : Type} (m : outcome A) (k : A -> outcome B) : outcome B :=
  match m with
  | Return a => k a
  | Raise e => Raise e
  end.

Notation "x <- m ;; k" := (bind m (fun x => k))
  (at level 61, m at next level, right associativity).

(** ** Python string operations used by the handlers (on ASCII text) *)

Definition lower_ascii (c : ascii) : ascii :=
  let n := N_of_ascii c in
  if (65 <=? n)%N && (n <=? 90)%N then ascii_of_N (n + 32) else c.

(** [str.lower()] on ASCII text: the letters A..Z are mapped, every other
    byte is kept. *)
Fixpoint lower (s : string) : string :=
  match s with
  | EmptyString => EmptyString
  | String c r => String (lower_ascii c) (lower r)
  end.

(** The ASCII characters [str.strip()] removes: tab, line feed, vertical tab,
    form feed, carriage return, the four separators 28..31, and space.
    Python removes every character for which [str.isspace()] holds, so also
    U+0085, U+00A0, U+1680, U+2000..U+200A, U+2028, U+2029, U+202F, U+205F
    and U+3000; these are not removed here. *)
Definition is_space (c : ascii) : bool :=
  let n := N_of_ascii c in
  ((9 <=? n)%N && (n <=? 13)%N) || ((28 <=? n)%N && (n <=? 32)%N).

Fixpoint lstrip (s : string) : string :=
  match s with
  | EmptyString => EmptyString
  | String c r => if is_space c then lstrip r else s
  end.

Fixpoint rstrip (s : string) : string :=
  match s with
  | EmptyString => EmptyString
  | String c r =>
      match rstrip r with
      | EmptyString => if is_space c then EmptyString else String c EmptyString
      | r' => String c r'
      end
  end.

(** [str.strip()] on ASCII text *)
Definition strip (s : string) : string := rstrip (lstrip s).

(** [s.find(sub) != -1] *)
Fixpoint contains (sub s : string) : bool :=
  String.prefix sub s ||
  match s with
  | EmptyString => false
  | String _ r => contains sub r
  end.

(** Truth value of a Python [str]: the empty string is falsy. *)
Definition truthy (s : string) : bool := negb (s =? "")%string.

(** ** [list.sort(key=...)] and SQL [ORDER BY ... ASC]

    [list.sort] is stable and compares keys with [<] only.  The stable
    arrangement of a list under a total preorder is unique, so the insertion
    sort below returns the list that Python's sort returns. *)

Section Sort.
Context {A K : Type}.
Variable ltb : K -> K -> bool.
Variable key : A -> K.

Fixpoint insert_by (x : A) (l : list A) : list A :=
  match l with
  | [] => [x]
  | y :: r => if ltb (key y) (key x) then y :: insert_by x r else x :: y :: r
  end.

Fixpoint sort_by (l : list A) : list A :=
  match l with
  | [] => []
  | x :: r => insert_by x (sort_by r)
  end.
End Sort.

(** ** The store: the three SQLite tables created by [init_db] *)

(** A row of [pools]; [p_x] is column [x].  [id] is the PRIMARY KEY. *)
Record pool_row : Type := mk_pool {
  p_id : string;
  p_destination_id : string;
  p_destination_name : string;
  p_lat : Q;
  p_lng : Q;
  p_when_iso : string;
  p_seats : Z;
  p_mode : string;
  p_notes : string;
  p_host_name : string;
  p_host_email : string;
  p_created_at : string;
  p_pickup : string
}.

(** A row of [members]; [m_x] is column [x].  UNIQUE(pool_id, email). *)
Record member_row : Type := mk_member {
  m_pool_id : string;
  m_name : string;
  m_email : string
}.

(** A row of [messages]; [g_x] is column [x].  [id] is the PRIMARY KEY. *)
Record message_row : Type := mk_message {
  g_id : string;
  g_pool_id : string;
  g_sender_email : string;
  g_sender_name : string;
  g_content : string;
  g_created_at : string
}.

(** Tables keep their rows in insertion (rowid) order. *)
Record db : Type := mk_db {
  pools : list pool_row;
  members : list member_row;
  messages : list message_row
}.

(** The store right after [init_db] on a fresh file. *)
Definition empty_db : db := mk_db [] [] [].

(** *** SQL statements *)

Definition member_matches (pool_id email : string) (m : member_row) : bool :=
  (m_pool_id m =? pool_id)%string && (m_email m =? email)%string.

(** [SELECT 1 FROM members WHERE pool_id = ? AND email = ?], [fetchone()] *)
Definition select_member (st : db) (pool_id email : string) : option member_row :=
  find (member_matches pool_id email) (members st).

(** [SELECT ... FROM pools WHERE id = ?], [fetchone()] *)
Definition select_pool (st : db) (pool_id : string) : option pool_row :=
  find (fun p => (p_id p =? pool_id)%string) (pools st).

(** [SELECT name, email FROM members WHERE pool_id = ?].  The statement has
    no ORDER BY: the rows are given here in the order of their insertion,
    where SQLite, reading through the index of UNIQUE(pool_id, email), gives
    them in the order of the email.  Only the set of the rows and their
    number are used in what follows. *)
Definition select_members (st : db) (pool_id : string) : list member_row :=
  filter (fun m => (m_pool_id m =? pool_id)%string) (members st).

(** [SELECT COUNT( * ) FROM members WHERE pool_id = ?] *)
Definition count_members (st : db) (pool_id : string) : Z :=
  Z.of_nat (List.length (select_members st pool_id)).

(** [SELECT id, when_iso FROM pools], [fetchall()] *)
Definition select_id_when (st : db) : list (string * string) :=
  map (fun p => (p_id p, p_when_iso p)) (pools st).

(** [INSERT INTO pools (...) VALUES (...)]: fails on a used primary key. *)
Definition insert_pool (st : db) (p : pool_row) : outcome db :=
  match select_pool st (p_id p) with
  | Some _ => Raise IntegrityError
  | None => Return (mk_db (pools st ++ [p]) (members st) (messages st))
  end.

(** [INSERT INTO members VALUES (?, ?, ?)]: fails on UNIQUE(pool_id, email). *)
Definition insert_member (st : db) (m : member_row) : outcome db :=
  match select_member st (m_pool_id m) (m_email m) with
  | Some _ => Raise IntegrityError
  | None => Return (mk_db (pools st) (members st ++ [m]) (messages st))
  end.

(** [INSERT OR IGNORE INTO members VALUES (?, ?, ?)] *)
Definition insert_or_ignore_member (st : db) (m : member_row) : db :=
  match select_member st (m_pool_id m) (m_email m) with
  | Some _ => st
  | None => mk_db (pools st) (members st ++ [m]) (messages st)
  end.

(** [DELETE FROM members WHERE pool_id = ? AND email = ?] *)
Definition delete_member (st : db) (pool_id email : string) : db :=
  mk_db (pools st)
        (filter (fun m => negb (member_matches pool_id email m)) (members st))
        (messages st).

(** [DELETE FROM members WHERE pool_id = ?] *)
Definition delete_members (st : db) (pool_id : string) : db :=
  mk_db (pools st)
        (filter (fun m => negb (m_pool_id m =? pool_id)%string) (members st))
        (messages st).

(** [DELETE FROM pools WHERE id = ?] *)
Definition delete_pool_row (st : db) (pool_id : string) : db :=
  mk_db (filter (fun p => negb (p_id p =? pool_id)%string) (pools st))
        (members st)
        (messages st).

(** [INSERT INTO messages (...) VALUES (...)]: fails on a used primary key. *)
Definition insert_message (st : db) (g : message_row) : outcome db :=
  if existsb (fun g' => (g_id g' =? g_id g)%string) (messages st)
  then Raise IntegrityError
  else Return (mk_db (pools st) (members st) (messages st ++ [g])).

(** SQL [LIMIT n]: a negative [n] means no limit. *)
Definition sql_limit {A : Type} (n : Z) (l : list A) : list A :=
  if n <? 0 then l else firstn (Z.to_nat n) l.

(** ** Constants *)

Definition COOLDOWN_MINUTES : Z := 15.
Definition SEATS_MIN : Z := 1.
Definition SEATS_MAX : Z := 10.

(** [timedelta(minutes=n)] in microseconds *)
Definition timedelta_minutes (n : Z) : Z := n * 60 * 1000000.

(** [int(datetime.timestamp() * 1000)]: the milliseconds since the epoch.
    [timestamp()] reads the naive local time in the time zone of the host;
    the value below is that of a host on UTC, and differs from it by the
    offset of the zone elsewhere.  It is used to tell the clicks apart and
    for nothing else. *)
Definition epoch_millis (t : Z) : Z := Z.quot t 1000.

(** [str(n)] for an integer *)
Definition str_of_int (n : Z) : string := NilZero.string_of_int (Z.to_int n).

(** A pool dictionary as [list_future_pools] returns it: the row, the
    [members] list attached to it, and the [distance_km] entry that the
    distance ordering of [pool.py] adds. *)
Record pool_view : Type := mk_view {
  v_row : pool_row;
  v_members : list (string * string);
  v_distance_km : option Q
}.

Definition v_id (v : pool_view) : string := p_id (v_row v).

(** What the backend answers to the query of [can_host_create]: the fetched
    [created_at] column under SQLite, [res.data] under Supabase, or an
    exception. *)
Inductive store_reply : Type :=
| SqliteRows (q : outcome (list string))
| SupabaseData (q : outcome (option (list pool_row))).

Definition reply_raised (r : store_reply) : Prop :=
  match r with
  | SqliteRows (Raise _) | SupabaseData (Raise _) => True
  | _ => False
  end.

(** ** The engine (data-layer functions shared by both applications) *)

Section Engine.

Variable fromisoformat : string -> option Z.
Variable isoformat : Z -> string.

(** [now_iso()] *)
Definition now_iso (now : Z) : string := isoformat now.

(** *** Spam guard *)

(** The [for (created_at,) in rows] loop of [can_host_create]. *)
Fixpoint can_host_create_rows (since : Z) (rows : list string) : bool :=
  match rows with
  | [] => true
  | created_at :: rest =>
      match fromisoformat created_at with
      | Some t => if since <=? t then false else can_host_create_rows since rest
      | None => can_host_create_rows since rest
      end
  end.

(** [can_host_create] as a function of what the store answers. *)
Definition can_host_create_on (now : Z) (r : store_reply) : bool :=
  let since := now - timedelta_minutes COOLDOWN_MINUTES in
  match r with
  | SupabaseData (Return data) =>
      negb (match data with Some (_ :: _) => true | _ => false end)
  | SupabaseData (Raise _) => true
  | SqliteRows (Return rows) => can_host_create_rows since rows
  | SqliteRows (Raise _) => true
  end.

(** [SELECT created_at FROM pools WHERE host_email = ?] *)
Definition select_created_at (st : db) (email : string) : list string :=
  map p_created_at
      (filter (fun p => (p_host_email p =? email)%string) (pools st)).

Definition can_host_create (now : Z) (st : db) (email : string) : bool :=
  can_host_create_on now (SqliteRows (Return (select_created_at st email))).

(** *** Core functions *)

Definition add_pool (st : db) (pool : pool_row) : outcome db :=
  st1 <- insert_pool st pool ;;
  Return (insert_or_ignore_member st1
            (mk_member (p_id pool) (p_host_name pool) (p_host_email pool))).

Definition is_future (now : Z) (p : pool_row) : bool :=
  match fromisoformat (p_when_iso p) with
  | Some t => now <=? t
  | None => false
  end.

Definition list_future_pools (now : Z) (st : db) : list pool_view :=
  map (fun p => mk_view p
                  (map (fun m => (m_name m, m_email m)) (select_members st (p_id p)))
                  None)
      (filter (is_future now) (pools st)).

Definition get_members_count (st : db) (pool_id : string) : Z :=
  count_members st pool_id.

(** [datetime.fromisoformat(when_iso) < datetime.now()], with the
    surrounding [try] ... [except Exception: pass]. *)
Definition ride_passed (now : Z) (when_iso : string) : bool :=
  match fromisoformat when_iso with
  | Some t => t <? now
  | None => false
  end.

Definition join_pool (now : Z) (st : db) (pool_id name email : string)
  : outcome (db * (bool * string)) :=
  match select_member st pool_id email with
  | Some _ => Return (st, (true, "Already joined"))
  | None =>
      match select_pool st pool_id with
      | None => Return (st, (false, "Pool not found"))
      | Some row =>
          let seats := p_seats row in
          let when_iso := p_when_iso row in
          if ride_passed now when_iso then
            Return (st, (false, "Ride time has passed"))
          else
            let count := count_members st pool_id in
            if seats <=? count then Return (st, (false, "Pool is full"))
            else
              st' <- insert_member st (mk_member pool_id name email) ;;
              Return (st', (true, "Joined"))
      end
  end.

Definition leave_pool (st : db) (pool_id email : string) : db :=
  delete_member st pool_id email.

(** [delete_pool], the SQLite arm (pool.py l.388-397, poolpreset.py
    l.569-579).  The Supabase arms are [Pool.delete_pool_supabase] and
    [PoolPreset.delete_pool_supabase] below. *)
Definition delete_pool (st : db) (pool_id requester_email : string) : db * bool :=
  match select_pool st pool_id with
  | None => (st, false)
  | Some row =>
      if negb (p_host_email row =? requester_email)%string then (st, false)
      else (delete_pool_row (delete_members st pool_id) pool_id, true)
  end.

(** The body of the [for pid, when_iso in cur.fetchall()] loop. *)
Definition cleanup_step (now : Z) (st : db) (r : string * string) : db :=
  let (pid, when_iso) := r in
  match fromisoformat when_iso with
  | Some t => if t <? now then delete_pool_row (delete_members st pid) pid else st
  | None => st
  end.

Definition cleanup_expired_pools (now : Z) (st : db) : db :=
  fold_left (cleanup_step now)
            (select_id_when st)
            st.

(** The ids that the loop of the cleanup deletes, given the fetched
    (id, when_iso) rows. *)
Definition reaped (now : Z) (rs : list (string * string)) (pid : string) : bool :=
  existsb (fun r => (pid =? fst r)%string && ride_passed now (snd r)) rs.

(** *** Chat *)

(** [SELECT ... FROM messages WHERE pool_id = ? ORDER BY created_at ASC
    LIMIT ?] *)
Definition list_messages (st : db) (pool_id : string) (limit : Z)
  : list message_row :=
  sql_limit limit
    (sort_by String.ltb g_created_at
       (filter (fun g => (g_pool_id g =? pool_id)%string) (messages st))).

Definition add_message (now : Z) (st : db)
           (pool_id sender_name sender_email content : string) : outcome db :=
  let ts := now_iso now in
  let mid := "msg_" ++ str_of_int (epoch_millis now) in
  insert_message st (mk_message mid pool_id sender_email sender_name content ts).

(** *** Histories of the store

    One step is one call of a data-layer function that writes.  [add_pool]
    is called by [create_pool_ui] only, with the value of the [Seats]
    widget, which lies between [SEATS_MIN] and [SEATS_MAX]. *)
Inductive step : db -> db -> Prop :=
| step_add_pool st pool st' :
    SEATS_MIN <= p_seats pool <= SEATS_MAX ->
    add_pool st pool = Return st' ->
    step st st'
| step_join_pool now st pool_id name email st' r :
    join_pool now st pool_id name email = Return (st', r) ->
    step st st'
| step_leave_pool st pool_id email :
    step st (leave_pool st pool_id email)
| step_delete_pool st pool_id requester_email :
    step st (fst (delete_pool st pool_id requester_email))
| step_cleanup now st :
    step st (cleanup_expired_pools now st)
| step_add_message now st pool_id sender_name sender_email content st' :
    add_message now st pool_id sender_name sender_email content = Return st' ->
    step st st'.

Inductive reachable : db -> Prop :=
| reachable_init : reachable empty_db
| reachable_step st st' : reachable st -> step st st' -> reachable st'.

End Engine.

(** ** The handlers of the two applications *)

(** [st.session_state.user] *)
Record user : Type := mk_user {
  u_name : string;
  u_email : string
}.

(** What a handler shows when it is done: [st.error(msg)] or
    [st.success(msg)]. *)
Inductive ui_message : Type :=
| st_error (msg : string)
| st_success (msg : string).

Definition cooldown_message : string :=
  "You can only create one pool every " ++ str_of_int COOLDOWN_MINUTES
  ++ " minutes to prevent spam.".

(** The block under the comment "bring it to top", the same in both files:
    [focus_pool = next((p for p in pools if p.get("id") == focus_id), None)],
    then [[focus_pool] + [p for p in pools if p.get("id") != ...]]. *)
Definition focus_to_top (focus_id : option string) (pools : list pool_view)
  : list pool_view :=
  match focus_id with
  | None => pools
  | Some f =>
      if truthy f then
        match find (fun p => (v_id p =? f)%string) pools with
        | Some focus_pool =>
            focus_pool
              :: filter (fun p => negb (v_id p =? v_id focus_pool)%string) pools
        | None => pools
        end
      else pools
  end.

(** [pools.sort(key=lambda x: x["when_iso"])] *)
Definition sort_chronological (pools : list pool_view) : list pool_view :=
  sort_by String.ltb (fun v => p_when_iso (v_row v)) pools.

(** *** pool.py (destinations from Google Places) *)
Module Pool.

(** A search result picked in the form ([dest]). *)
Record destination : Type := mk_dest {
  d_id : option string;
  d_name : string;
  d_lat : Q;
  d_lng : Q;
  d_addr : string
}.

(** [{"lat": ..., "lng": ...}] *)
Record coords : Type := mk_coords {
  c_lat : Q;
  c_lng : Q
}.

(** The Supabase arm of [delete_pool] (l.381-387) over plain tables: the
    host is read from the first row of that id, then the member rows and the
    pool row are deleted, each by a request of its own.  Every request is
    taken to be answered; one that raises leaves the handler. *)
Definition delete_pool_supabase (st : db) (pool_id requester_email : string)
  : db * bool :=
  match select_pool st pool_id with
  | None => (st, false)
  | Some row =>
      if negb (p_host_email row =? requester_email)%string then (st, false)
      else (delete_pool_row (delete_members st pool_id) pool_id, true)
  end.

Section Handlers.

Variable fromisoformat : string -> option Z.
Variable isoformat : Z -> string.
(** [haversine_km] computes in floating point; the ordering only needs
    its value as a key.  The function of the source can also fail: with
    [math.sqrt(1 - x)] when rounding puts [x] above 1 (two places that are
    antipodes), and with [math.radians] when a coordinate is missing.  That
    is not modelled: the distance step below is the one of a run in which
    every call returns, and nothing is stated of a list with a target
    place. *)
Variable haversine_km : coords -> coords -> Q.

Definition looks_like_airport (dest : destination) : bool :=
  contains "airport" (lower (d_name dest))
  || contains "airport" (lower (d_addr dest)).

(** The body of [if st.button("Create Pool")] in [create_pool_ui]. *)
Definition create_pool_ui (now : Z) (st : db) (usr : user)
           (dest : option destination) (when_dt : Z)
           (mode pickup : string) (seats : Z) (notes : string)
  : outcome (db * ui_message) :=
  match dest with
  | None => Return (st, st_error "Please search and select a destination.")
  | Some dest =>
      if when_dt <? now then
        Return (st, st_error "Please pick a future time.")
      else if looks_like_airport dest && negb (truthy (strip pickup)) then
        Return (st, st_error "For airport rides, please enter a pickup point.")
      else if negb (can_host_create fromisoformat now st (u_email usr)) then
        Return (st, st_error cooldown_message)
      else
        let pool :=
          mk_pool ("pool_" ++ str_of_int (epoch_millis now))
                  (match d_id dest with
                   | Some i => if truthy i then i else d_name dest
                   | None => d_name dest
                   end)
                  (d_name dest) (d_lat dest) (d_lng dest)
                  (isoformat when_dt) seats mode (strip notes)
                  (u_name usr) (u_email usr) (now_iso isoformat now)
                  (strip pickup) in
        st' <- add_pool st pool ;;
        Return (st', st_success "Pool created!")
  end.

(** [abs((fromisoformat(p["when_iso"]) - target_dt).total_seconds()) <= 900]
    over the list; the parse is not guarded here. *)
Fixpoint time_filter (target_dt : Z) (pools : list pool_view)
  : outcome (list pool_view) :=
  match pools with
  | [] => Return []
  | p :: rest =>
      match fromisoformat (p_when_iso (v_row p)) with
      | None => Raise ValueError
      | Some t =>
          rest' <- time_filter target_dt rest ;;
          Return (if Z.abs (t - target_dt) <=? 900 * 1000000
                  then p :: rest' else rest')
      end
  end.

Definition set_distance (target : coords) (p : pool_view) : pool_view :=
  mk_view (v_row p) (v_members p)
          (Some (haversine_km target
                   (mk_coords (p_lat (v_row p)) (p_lng (v_row p))))).

Definition distance_key (p : pool_view) : Q :=
  match v_distance_km p with
  | Some d => d
  | None => 0%Q (* the entry is always set before the sort reads it *)
  end.

(** [pools_list_ui] up to the list it renders: the store after the
    cleanup, and the pools in the order they are shown. *)
Definition pools_list_ui (now : Z) (st : db) (focus_id : option string)
           (target_dt : option Z) (target : option coords)
  : db * outcome (list pool_view) :=
  let st1 := cleanup_expired_pools fromisoformat now st in
  let pools := list_future_pools fromisoformat now st1 in
  let pools := focus_to_top focus_id pools in
  (st1,
   pools <- match target_dt with
            | Some t => time_filter t pools
            | None => Return pools
            end ;;
   Return (match target with
           | Some tg =>
               sort_by (fun a b => negb (Qle_bool b a)) distance_key
                       (map (set_distance tg) pools)
           | None => sort_chronological pools
           end)).

End Handlers.
End Pool.

(** *** poolpreset.py (destinations from a fixed list) *)
Module PoolPreset.

Definition is_slug_char (c : ascii) : bool :=
  let n := N_of_ascii c in
  ((97 <=? n)%N && (n <=? 122)%N) || ((48 <=? n)%N && (n <=? 57)%N).

(** [re.sub(r"[^a-z0-9]+", "_", s)]: [in_run] tells that the previous
    character was already replaced. *)
Fixpoint sub_runs (in_run : bool) (s : string) : string :=
  match s with
  | EmptyString => EmptyString
  | String c r =>
      if is_slug_char c then String c (sub_runs false r)
      else if in_run then sub_runs true r
      else String "_" (sub_runs true r)
  end.

Fixpoint lstrip_underscore (s : string) : string :=
  match s with
  | String "_" r => lstrip_underscore r
  | _ => s
  end.

Fixpoint rstrip_underscore (s : string) : string :=
  match s with
  | EmptyString => EmptyString
  | String c r =>
      match rstrip_underscore r with
      | EmptyString => if (c =? "_")%char then EmptyString else String c EmptyString
      | r' => String c r'
      end
  end.

(** [_slug] *)
Definition slug (s : string) : string :=
  rstrip_underscore (lstrip_underscore (sub_runs false (lower s))).

(** What [rpc.data] holds once the stored procedure [delete_pool_if_host] has
    answered: a boolean, or another value, of which the truth value is
    read. *)
Inductive rpc_data : Type :=
| rpc_bool (b : bool)
| rpc_other (truth : bool).

(** The fallback of the Supabase arm of [delete_pool] (l.559-567) over plain
    tables: the host is read from the first row of that id, and the pool row
    is deleted.  No request deletes a member row.  [dres.data] holds the rows
    that the request deleted, and the answer is its truth value; with
    [rls_allows] false the row level security of the table lets the request
    delete nothing.  Every request is taken to be answered; one that raises
    makes the fallback answer False. *)
Definition delete_pool_fallback (rls_allows : bool) (st : db)
           (pool_id requester_email : string) : db * bool :=
  match select_pool st pool_id with
  | None => (st, false)
  | Some row =>
      if negb (p_host_email row =? requester_email)%string then (st, false)
      else
        let deleted :=
          if rls_allows
          then filter (fun p => (p_id p =? pool_id)%string) (pools st)
          else [] in
        (if rls_allows then delete_pool_row st pool_id else st,
         match deleted with
         | [] => false
         | _ :: _ => true
         end)
  end.

(** The Supabase arm of [delete_pool] (l.549-567).  [rpc] is what the call of
    the stored procedure gives and [st_rpc] the tables as the procedure left
    them when it answered; its text is not in the repository.  A call that
    raises, as it does where the procedure is not installed, leaves the
    tables as they were. *)
Definition delete_pool_supabase (rpc : outcome rpc_data) (st_rpc : db)
           (rls_allows : bool) (st : db) (pool_id requester_email : string)
  : db * bool :=
  match rpc with
  | Return (rpc_bool b) => (st_rpc, b)
  | Return (rpc_other true) => (st_rpc, true)
  | Return (rpc_other false) =>
      delete_pool_fallback rls_allows st_rpc pool_id requester_email
  | Raise _ => delete_pool_fallback rls_allows st pool_id requester_email
  end.

Section Handlers.

Variable fromisoformat : string -> option Z.
Variable isoformat : Z -> string.

(** The body of [if st.button("Create Pool")] in [create_pool_ui]. *)
Definition create_pool_ui (now : Z) (st : db) (usr : user)
           (dest_name : string) (when_dt : Z)
           (mode pickup : string) (seats : Z) (notes : string)
  : outcome (db * ui_message) :=
  if when_dt <? now then
    Return (st, st_error "Please pick a future time.")
  else if negb (truthy (strip pickup)) then
    Return (st, st_error "Please select or enter a pickup point.")
  else if negb (can_host_create fromisoformat now st (u_email usr)) then
    Return (st, st_error cooldown_message)
  else
    let pool :=
      mk_pool ("pool_" ++ str_of_int (epoch_millis now))
              (slug dest_name) dest_name 0%Q 0%Q
              (isoformat when_dt) seats mode (strip notes)
              (u_name usr) (u_email usr) (now_iso isoformat now)
              (strip pickup) in
    st' <- add_pool st pool ;;
    Return (st', st_success "Pool created!").

Definition same_choice (field choice : string) : bool :=
  (lower (strip field) =? lower (strip choice))%string.

(** [pools_list_ui] up to the list it renders.  [prune] is the
    [_deleted_pool_id] entry of the session, [dest_choice] and
    [pickup_choice] are the two filter boxes. *)
Definition pools_list_ui (now : Z) (st : db) (prune focus_id : option string)
           (dest_choice pickup_choice : string)
  : db * list pool_view :=
  let st1 := cleanup_expired_pools fromisoformat now st in
  let pools := list_future_pools fromisoformat now st1 in
  let pools :=
    match prune with
    | Some d => if truthy d
                then filter (fun p => negb (v_id p =? d)%string) pools
                else pools
    | None => pools
    end in
  let pools :=
    if negb (dest_choice =? "All destinations")%string
    then filter (fun p => same_choice (p_destination_name (v_row p)) dest_choice) pools
    else pools in
  let pools :=
    if negb (pickup_choice =? "Any pickup")%string
    then filter (fun p => same_choice (p_pickup (v_row p)) pickup_choice) pools
    else pools in
  let pools := focus_to_top focus_id pools in
  (st1, sort_chronological pools).

End Handlers.
End PoolPreset.

(** ** Executable instances of [fromisoformat] and [isoformat]

    [iso_format] writes the spelling of [datetime.isoformat()] for a naive
    datetime, and [iso_parse] reads that spelling back; text in any other
    spelling is rejected. *)

Definition obind {A B : Type} (m : option A) (k : A -> option B) : option B :=
  match m with
  | Some a => k a
  | None => None
  end.

Notation "' p <~ m ;; k" := (obind m (fun p => k))
  (at level 61, p pattern, m at next level, right associativity).

Definition digit_of (c : ascii) : option Z :=
  let n := Z.of_N (N_of_ascii c) in
  if (48 <=? n) && (n <=? 57) then Some (n - 48) else None.

(** Reads exactly [k] decimal digits. *)
Fixpoint read_digits (k : nat) (acc : Z) (s : string) : option (Z * string) :=
  match k with
  | O => Some (acc, s)
  | S k' =>
      match s with
      | String c r =>
          match digit_of c with
          | Some d => read_digits k' (10 * acc + d) r
          | None => None
          end
      | EmptyString => None
      end
  end.

Definition read_char (c : ascii) (s : string) : option string :=
  match s with
  | String c' r => if (c' =? c)%char then Some r else None
  | EmptyString => None
  end.

Definition is_leap (y : Z) : bool :=
  ((y mod 4 =? 0) && negb (y mod 100 =? 0)) || (y mod 400 =? 0).

Definition days_in_month (y m : Z) : Z :=
  if m =? 2 then (if is_leap y then 29 else 28)
  else if (m =? 4) || (m =? 6) || (m =? 9) || (m =? 11) then 30
  else 31.

(** Days from 1970-01-01 to the given date of the proleptic Gregorian
    calendar. *)
Definition days_from_civil (y m d : Z) : Z :=
  let y' := if m <=? 2 then y - 1 else y in
  let era := y' / 400 in
  let yoe := y' - era * 400 in
  let doy := (153 * (if 2 <? m then m - 3 else m + 9) + 2) / 5 + d - 1 in
  let doe := yoe * 365 + yoe / 4 - yoe / 100 + doy in
  era * 146097 + doe - 719468.

(** The date, as (year, month, day), that lies [z] days after 1970-01-01. *)
Definition civil_from_days (z : Z) : Z * Z * Z :=
  let z := z + 719468 in
  let era := z / 146097 in
  let doe := z - era * 146097 in
  let yoe := (doe - doe / 1460 + doe / 36524 - doe / 146096) / 365 in
  let doy := doe - (365 * yoe + yoe / 4 - yoe / 100) in
  let mp := (5 * doy + 2) / 153 in
  let d := doy - (153 * mp + 2) / 5 + 1 in
  let m := if mp <? 10 then mp + 3 else mp - 9 in
  let y := yoe + era * 400 in
  (if m <=? 2 then y + 1 else y, m, d).

Definition micros_per_day : Z := 86400 * 1000000.

Definition iso_parse (s : string) : option Z :=
  '(y, s) <~ read_digits 4 0 s ;;
  's <~ read_char "-" s ;;
  '(m, s) <~ read_digits 2 0 s ;;
  's <~ read_char "-" s ;;
  '(d, s) <~ read_digits 2 0 s ;;
  's <~ read_char "T" s ;;
  '(hh, s) <~ read_digits 2 0 s ;;
  's <~ read_char ":" s ;;
  '(mi, s) <~ read_digits 2 0 s ;;
  's <~ read_char ":" s ;;
  '(ss, s) <~ read_digits 2 0 s ;;
  '(us, s) <~ match s with
              | String "." r => read_digits 6 0 r
              | _ => Some (0, s)
              end ;;
  if (s =? "")%string
     && (1 <=? y) && (1 <=? m) && (m <=? 12)
     && (1 <=? d) && (d <=? days_in_month y m)
     && (hh <? 24) && (mi <? 60) && (ss <? 60)
  then Some (days_from_civil y m d * micros_per_day
             + ((hh * 60 + mi) * 60 + ss) * 1000000 + us)
  else None.

Fixpoint zeros (n : nat) : string :=
  match n with
  | O => ""
  | S k => String "0" (zeros k)
  end.

(** [n] in decimal, padded with zeros on the left to [w] characters. *)
Definition pad (w : nat) (n : Z) : string :=
  let s := str_of_int n in
  zeros (w - String.length s) ++ s.

Definition iso_format (t : Z) : string :=
  let days := t / micros_per_day in
  let rest := t mod micros_per_day in
  let '(y, m, d) := civil_from_days days in
  let us := rest mod 1000000 in
  let secs := rest / 1000000 in
  pad 4 y ++ "-" ++ pad 2 m ++ "-" ++ pad 2 d ++ "T"
  ++ pad 2 (secs / 3600) ++ ":" ++ pad 2 (secs / 60 mod 60) ++ ":"
  ++ pad 2 (secs mod 60)
  ++ (if us =? 0 then "" else "." ++ pad 6 us).

(** ** Predicates used in the statements *)

(** The pair that the UNIQUE constraint of [members] is about. *)
Definition member_key (m : member_row) : string * string :=
  (m_pool_id m, m_email m).

(** [email] holds a seat in [pool_id]. *)
Definition is_member (st : db) (pool_id email : string) : Prop :=
  exists m, In m (members st) /\ m_pool_id m = pool_id /\ m_email m = email.

(** The number of rows of [members] for the pair [(pool_id, email)]. *)
Definition membership_rows (st : db) (pool_id email : string) : nat :=
  List.length (filter (member_matches pool_id email) (members st)).

(** The PRIMARY KEY of [pools] holds. *)
Definition pool_ids_unique (st : db) : Prop := NoDup (map p_id (pools st)).

(** What the schema and the engine keep true of the store. *)
Record consistent (st : db) : Prop := mk_consistent {
  pool_key : pool_ids_unique st;
  member_unique : NoDup (map member_key (members st));
  member_of_pool :
    forall m, In m (members st) ->
              exists p, In p (pools st) /\ p_id p = m_pool_id m;
  within_capacity :
    forall p, In p (pools st) -> count_members st (p_id p) <= p_seats p
}.

(** The departure time of [p] is read, and lies strictly before [now]. *)
Definition departs_before (fromisoformat : string -> option Z) (now : Z)
           (p : pool_row) : Prop :=
  exists t, fromisoformat (p_when_iso p) = Some t /\ t < now.

(** [p] was created by [email] at the instant [t]. *)
Definition created_by_at (fromisoformat : string -> option Z)
           (email : string) (t : Z) (p : pool_row) : Prop :=
  p_host_email p = email /\ fromisoformat (p_created_at p) = Some t.

(** ** Sample data *)

Definition alice : user := mk_user "Alice" "alice@hyderabad.bits-pilani.ac.in".
Definition bob : user := mk_user "Bob" "bob@hyderabad.bits-pilani.ac.in".

(** 2030-01-01T10:00:00 *)
Definition ten_o_clock : Z := 1893492000000000.
Definition one_minute : Z := 60 * 1000000.
Definition one_hour : Z := 60 * one_minute.

Definition ride (pid : string) (when_dt : Z) (seats : Z) (host : user)
           (created : Z) : pool_row :=
  mk_pool pid "jbs" "JBS" 0%Q 0%Q (iso_format when_dt) seats "Cab" ""
          (u_name host) (u_email host) (iso_format created) "BPHC Main Gate".

(** Alice's one-seat ride at noon, created at ten. *)
Definition noon_ride : pool_row :=
  ride "pool_1893492000000" (ten_o_clock + 2 * one_hour) 1 alice ten_o_clock.

(** The store once Alice has created [noon_ride]. *)
Definition db_noon : db :=
  mk_db [noon_ride]
        [mk_member "pool_1893492000000" "Alice" "alice@hyderabad.bits-pilani.ac.in"]
        [].

(** Two rides by different hosts: Alice's leaves at noon, Bob's at one. *)
Definition one_ride : pool_row :=
  ride "pool_1893492060000" (ten_o_clock + 3 * one_hour) 3 bob
       (ten_o_clock + one_minute).

Definition db_two_rides : db :=
  mk_db [noon_ride; one_ride]
        [mk_member "pool_1893492000000" "Alice" "alice@hyderabad.bits-pilani.ac.in";
         mk_member "pool_1893492060000" "Bob" "bob@hyderabad.bits-pilani.ac.in"]
        [].

(** [n] chat messages of one pool, one per second, oldest first. *)
Fixpoint chat_from (k : Z) (n : nat) : list message_row :=
  match n with
  | O => []
  | S n' =>
      mk_message ("msg_" ++ str_of_int (epoch_millis ten_o_clock + 1000 * k))
                 "pool_1893492000000" "alice@hyderabad.bits-pilani.ac.in" "Alice"
                 ("message " ++ str_of_int k)
                 (iso_format (ten_o_clock + 1000000 * k))
      :: chat_from (k + 1) n'
  end.

Definition db_chat (n : nat) : db :=
  mk_db (pools db_noon) (members db_noon) (chat_from 0 n).

(** ** Further functions of the two files *)

(** *** Identity gate *)

(** [s.endswith(suffix)] *)
Fixpoint ends_with (suffix s : string) : bool :=
  (s =? suffix)%string ||
  match s with
  | EmptyString => false
  | String _ r => ends_with suffix r
  end.

Definition BITS_SUFFIX : string := "@hyderabad.bits-pilani.ac.in".

(** [is_bits_email]: the pattern [@hyderabad\.bits-pilani\.ac\.in$] searched
    in [email.strip()] with [re.IGNORECASE].  The pattern is a literal that is
    anchored at the end, so on ASCII text the search succeeds exactly when
    the stripped text, in lower case, ends with the literal.  Outside ASCII
    the two differ: [re.IGNORECASE] also lets U+017F stand for [s] and U+0130
    and U+0131 for [i], which [str.lower()] does not turn into these
    letters.  The definition is that of the source for ASCII text only. *)
Definition is_bits_email (email : string) : bool :=
  ends_with BITS_SUFFIX (lower (strip email)).

(** What the [Enter] button of the manual form of [email_gate] (pool.py) does:
    an error in the sidebar, or the user put into the session. *)
Inductive gate_result : Type :=
| gate_error (msg : string)
| gate_user (u : user).

Definition email_gate_enter (name email : string) : gate_result :=
  if negb (truthy (strip name)) then gate_error "Please enter your name"
  else if negb (is_bits_email email) then
    gate_error "Use your BITS Hyderabad email (…@hyderabad.bits-pilani.ac.in)"
  else gate_user (mk_user (strip name) (lower (strip email))).

(** *** Membership queries of poolpreset.py *)

(** [get_member_list] *)
Definition get_member_list (st : db) (pool_id : string) : list (string * string) :=
  map (fun m => (m_name m, m_email m)) (select_members st pool_id).

(** [is_user_member]: [cur.fetchone() is not None] *)
Definition is_user_member (st : db) (pool_id email : string) : bool :=
  match select_member st pool_id email with
  | Some _ => true
  | None => false
  end.

(** *** The card of one pool in [pools_list_ui] *)

(** The button in the last column of a card. *)
Inductive card_button : Type :=
| LeaveButton
| JoinButton
| FullButton.

(** pool.py: [already] is read from the [members] list attached to the pool,
    [cur_count] from the store. *)
Definition card_button_pool (st : db) (usr : user) (p : pool_view) : card_button :=
  let cur_count := count_members st (v_id p) in
  let already :=
    existsb (fun m => (snd m =? u_email usr)%string) (v_members p) in
  if already then LeaveButton
  else if cur_count <? p_seats (v_row p) then JoinButton
  else FullButton.

(** poolpreset.py: both are read from the store. *)
Definition card_button_preset (st : db) (usr : user) (p : pool_view) : card_button :=
  let cur_count := count_members st (v_id p) in
  if is_user_member st (v_id p) (u_email usr) then LeaveButton
  else if cur_count <? p_seats (v_row p) then JoinButton
  else FullButton.

(** [if p.get("host_email") == user["email"]]: the [Delete] button is there. *)
Definition delete_button (usr : user) (p : pool_view) : bool :=
  (p_host_email (v_row p) =? u_email usr)%string.

(** poolpreset.py, [already]: the members and the chat are shown. *)
Definition chat_visible (st : db) (usr : user) (p : pool_view) : bool :=
  is_user_member st (v_id p) (u_email usr)
  || (p_host_email (v_row p) =? u_email usr)%string.

(** poolpreset.py, the chat form:
    [if sent and text.strip(): add_message(pid, name, email, text.strip())] *)
Definition chat_send (isoformat : Z -> string) (now : Z) (st : db) (usr : user)
           (pool_id text : string) : outcome db :=
  if truthy (strip text)
  then add_message isoformat now st pool_id (u_name usr) (u_email usr) (strip text)
  else Return st.

(** The order that a sort leaves: no neighbour has a smaller key than the
    element before it. *)
Definition in_order {A K : Type} (ltb : K -> K -> bool) (key : A -> K)
  : list A -> Prop :=
  Sorted (fun a b => ltb (key b) (key a) = false).

(** The pools of a list are in the order of their [when_iso] text. *)
Definition chronological : list pool_view -> Prop :=
  in_order String.ltb (fun v => p_when_iso (v_row v)).

(** A text that [str.strip()] empties. *)
Definition blank (s : string) : Prop := strip s = "".

(** The departure time of the card is read and lies within fifteen minutes
    of [target_dt]: the test of the time filter of pool.py. *)
Definition within_window (fromisoformat : string -> option Z) (target_dt : Z)
           (v : pool_view) : bool :=
  match fromisoformat (p_when_iso (v_row v)) with
  | Some t => Z.abs (t - target_dt) <=? 900 * 1000000
  | None => false
  end.

(** Every character of the text passes the test. *)
Fixpoint string_forall (f : ascii -> bool) (s : string) : bool :=
  match s with
  | EmptyString => true
  | String c r => f c && string_forall f r
  end.

(** [str.isascii()]: every code is below 128. *)
Definition is_ascii (s : string) : bool :=
  string_forall (fun c => (N_of_ascii c <? 128)%N) s.

(** * Properties *)

(** ** Facts about lists *)

Section ListFacts.
Context {A B : Type}.

Lemma NoDup_map_filter (f : A -> B) (g : A -> bool) (l : list A) :
  NoDup (map f l) -> NoDup (map f (filter g l)).
Proof.
  induction l as [|x l IH]; simpl; intros H.
  - constructor.
  - inversion H as [|? ? Hx Hl]; subst.
    destruct (g x); simpl; auto.
    constructor; auto.
    intros Hin. apply Hx.
    apply in_map_iff in Hin as [y [Hy Hin]].
    apply filter_In in Hin as [Hin _].
    apply in_map_iff. eauto.
Qed.

Lemma NoDup_map_snoc (f : A -> B) (l : list A) (x : A) :
  NoDup (map f l) -> ~ In (f x) (map f l) -> NoDup (map f (l ++ [x])).
Proof.
  induction l as [|y l IH]; simpl; intros H Hx.
  - constructor; [intros [] | constructor].
  - inversion H as [|? ? Hy Hl]; subst.
    constructor.
    + rewrite map_app, in_app_iff. simpl. intros [Hin | [Heq | []]].
      * contradiction.
      * apply Hx. left. symmetry. exact Heq.
    + apply IH; auto.
Qed.

Lemma filter_none (g : A -> bool) (l : list A) :
  (forall x, In x l -> g x = false) -> filter g l = [].
Proof.
  induction l as [|x l IH]; simpl; intros H; auto.
  rewrite (H x (or_introl eq_refl)). apply IH. intros y Hy. apply H. now right.
Qed.

Lemma filter_all (g : A -> bool) (l : list A) :
  (forall x, In x l -> g x = true) -> filter g l = l.
Proof.
  induction l as [|x l IH]; simpl; intros H; auto.
  rewrite (H x (or_introl eq_refl)). f_equal. apply IH. intros y Hy. apply H. now right.
Qed.

Lemma filter_filter (g h : A -> bool) (l : list A) :
  filter g (filter h l) = filter (fun x => h x && g x) l.
Proof.
  induction l as [|x l IH]; simpl; auto.
  destruct (h x); simpl; rewrite IH; reflexivity.
Qed.

Lemma filter_ext_in' (g h : A -> bool) (l : list A) :
  (forall x, In x l -> g x = h x) -> filter g l = filter h l.
Proof.
  induction l as [|x l IH]; simpl; intros H; auto.
  rewrite (H x (or_introl eq_refl)).
  rewrite IH by (intros y Hy; apply H; now right).
  reflexivity.
Qed.
End ListFacts.

(** ** Facts about the SQL statements *)

Lemma member_matches_true pool_id email m :
  member_matches pool_id email m = true <->
  m_pool_id m = pool_id /\ m_email m = email.
Proof.
  unfold member_matches.
  rewrite andb_true_iff, !String.eqb_eq. reflexivity.
Qed.

Lemma select_member_some st pool_id email :
  is_member st pool_id email <-> exists m, select_member st pool_id email = Some m.
Proof.
  unfold is_member, select_member. split.
  - intros [m [Hin Hm]].
    destruct (find (member_matches pool_id email) (members st)) eqn:E; eauto.
    apply (find_none _ _ E) in Hin.
    apply member_matches_true in Hm. congruence.
  - intros [m E]. apply find_some in E as [Hin Hm].
    apply member_matches_true in Hm. eauto.
Qed.

Lemma select_member_none st pool_id email :
  select_member st pool_id email = None <-> ~ is_member st pool_id email.
Proof.
  rewrite select_member_some. split.
  - intros E [m Hm]. congruence.
  - intros H. destruct (select_member st pool_id email) eqn:E; auto.
    exfalso. eauto.
Qed.

Lemma select_pool_in st pool_id row :
  select_pool st pool_id = Some row -> In row (pools st) /\ p_id row = pool_id.
Proof.
  unfold select_pool. intros E. apply find_some in E as [Hin Hid].
  apply String.eqb_eq in Hid. auto.
Qed.

Lemma select_pool_none st pool_id :
  select_pool st pool_id = None <-> ~ In pool_id (map p_id (pools st)).
Proof.
  unfold select_pool. split.
  - intros E Hin. apply in_map_iff in Hin as [p [Hid Hin]].
    apply (find_none _ _ E) in Hin. apply String.eqb_neq in Hin. auto.
  - intros H. destruct (find _ (pools st)) eqn:E; auto.
    apply find_some in E as [Hin Hid]. apply String.eqb_eq in Hid.
    exfalso. apply H. apply in_map_iff. eauto.
Qed.

(** Under the primary key, [fetchone()] returns the row with that id. *)
Lemma select_pool_unique st p :
  pool_ids_unique st -> In p (pools st) -> select_pool st (p_id p) = Some p.
Proof.
  unfold pool_ids_unique, select_pool.
  induction (pools st) as [|q l IH]; simpl; intros Hnd Hin; [contradiction|].
  inversion Hnd as [|? ? Hq Hl]; subst.
  destruct Hin as [-> | Hin].
  - now rewrite String.eqb_refl.
  - destruct (String.eqb_spec (p_id q) (p_id p)) as [E | _]; auto.
    exfalso. apply Hq. rewrite E. now apply in_map.
Qed.

Lemma count_members_nonneg st pool_id : 0 <= count_members st pool_id.
Proof. unfold count_members. lia. Qed.

Lemma count_members_snoc ps ms gs m pool_id :
  count_members (mk_db ps (ms ++ [m]) gs) pool_id =
  count_members (mk_db ps ms gs) pool_id
  + (if (m_pool_id m =? pool_id)%string then 1 else 0).
Proof.
  unfold count_members, select_members. cbn [members].
  rewrite filter_app, length_app. simpl.
  destruct (m_pool_id m =? pool_id)%string; simpl; lia.
Qed.

Lemma count_members_filter_le ps ms gs (g : member_row -> bool) pool_id :
  count_members (mk_db ps (filter g ms) gs) pool_id
  <= count_members (mk_db ps ms gs) pool_id.
Proof.
  unfold count_members, select_members. cbn [members].
  rewrite filter_filter.
  rewrite (filter_ext_in' (fun x => g x && (m_pool_id x =? pool_id)%string)
             (fun x => (m_pool_id x =? pool_id)%string && g x))
    by (intros; apply andb_comm).
  rewrite <- filter_filter.
  apply Nat2Z.inj_le, filter_length_le.
Qed.

Lemma count_members_eq st st' pool_id :
  members st = members st' -> count_members st pool_id = count_members st' pool_id.
Proof. unfold count_members, select_members. now intros ->. Qed.

Lemma db_eta st : mk_db (pools st) (members st) (messages st) = st.
Proof. destruct st; reflexivity. Qed.

(** ** The store stays consistent *)

Lemma consistent_empty : consistent empty_db.
Proof.
  split; unfold pool_ids_unique; simpl.
  - constructor.
  - constructor.
  - intros m [].
  - intros p [].
Qed.

Lemma add_pool_inv st pool st' :
  add_pool st pool = Return st' ->
  select_pool st (p_id pool) = None /\
  st' = insert_or_ignore_member
          (mk_db (pools st ++ [pool]) (members st) (messages st))
          (mk_member (p_id pool) (p_host_name pool) (p_host_email pool)).
Proof.
  unfold add_pool, insert_pool.
  destruct (select_pool st (p_id pool)); simpl; intros E; [discriminate|].
  injection E as <-. auto.
Qed.

(** No member row points at an id that no pool has. *)
Lemma no_member_of_fresh_pool st pool_id :
  consistent st -> select_pool st pool_id = None ->
  forall m, In m (members st) -> (m_pool_id m =? pool_id)%string = false.
Proof.
  intros C Hnone m Hin.
  apply String.eqb_neq. intros E.
  destruct (member_of_pool st C m Hin) as [p [Hp Hid]].
  apply select_pool_none in Hnone. apply Hnone.
  apply in_map_iff. exists p. split; [congruence | assumption].
Qed.

Lemma add_pool_result st pool st' :
  consistent st -> add_pool st pool = Return st' ->
  st' = mk_db (pools st ++ [pool])
              (members st
           ++ [mk_member (p_id pool) (p_host_name pool) (p_host_email pool)])
              (messages st).
Proof.
  intros C E. apply add_pool_inv in E as [Hnone ->].
  unfold insert_or_ignore_member. cbn [m_pool_id m_email].
  destruct (select_member _ _ _) eqn:S; auto.
  exfalso. unfold select_member in S. cbn [members] in S.
  apply find_some in S as [Hin Hm].
  apply member_matches_true in Hm as [Hid _].
  pose proof (no_member_of_fresh_pool st (p_id pool) C Hnone m Hin) as F.
  apply String.eqb_neq in F. contradiction.
Qed.

Lemma add_pool_consistent st pool st' :
  consistent st -> SEATS_MIN <= p_seats pool ->
  add_pool st pool = Return st' -> consistent st'.
Proof.
  intros C Hseats E.
  pose proof (add_pool_inv _ _ _ E) as [Hnone _].
  rewrite (add_pool_result _ _ _ C E). clear E st'.
  pose proof (no_member_of_fresh_pool st (p_id pool) C Hnone) as Hfresh.
  split.
  - unfold pool_ids_unique. cbn [pools].
    apply NoDup_map_snoc; [apply (pool_key st C)|].
    now apply select_pool_none.
  - cbn [members]. apply NoDup_map_snoc; [apply (member_unique st C)|].
    intros Hin. apply in_map_iff in Hin as [m [Hk Hin]].
    unfold member_key in Hk. cbn [m_pool_id m_email] in Hk.
    injection Hk as Hid _.
    specialize (Hfresh m Hin). apply String.eqb_neq in Hfresh. contradiction.
  - cbn [members pools]. intros m Hin.
    apply in_app_iff in Hin as [Hin | [<- | []]].
    + destruct (member_of_pool st C m Hin) as [p [Hp Hid]].
      exists p. split; [apply in_app_iff; now left | assumption].
    + exists pool. split; [apply in_app_iff; right; now left | reflexivity].
  - cbn [pools]. intros p Hin. rewrite count_members_snoc. cbn [m_pool_id].
    apply in_app_iff in Hin as [Hin | [<- | []]].
    + destruct (String.eqb_spec (p_id pool) (p_id p)) as [E | _].
      * exfalso. apply select_pool_none in Hnone. apply Hnone.
        rewrite E. now apply in_map.
      * rewrite (count_members_eq _ st) by reflexivity.
        pose proof (within_capacity st C p Hin). lia.
    + rewrite String.eqb_refl.
      assert (count_members (mk_db (pools st ++ [pool]) (members st) (messages st))
                            (p_id pool) = 0) as ->.
      { unfold count_members, select_members. cbn [members].
        rewrite (filter_none _ _ Hfresh). reflexivity. }
      unfold SEATS_MIN in Hseats. lia.
Qed.

Section EngineFacts.

Variable fromisoformat : string -> option Z.
Variable isoformat : Z -> string.

Lemma join_pool_cases now st pool_id name email st' r :
  join_pool fromisoformat now st pool_id name email = Return (st', r) ->
  (st' = st /\ fst r = true /\ snd r = "Already joined"
   /\ is_member st pool_id email)
  \/ (st' = st /\ fst r = false)
  \/ (r = (true, "Joined")
      /\ st' = mk_db (pools st) (members st ++ [mk_member pool_id name email])
                     (messages st)
      /\ ~ is_member st pool_id email
      /\ exists row, select_pool st pool_id = Some row
                     /\ ride_passed fromisoformat now (p_when_iso row) = false
                     /\ count_members st pool_id < p_seats row).
Proof.
  unfold join_pool.
  destruct (select_member st pool_id email) eqn:M.
  { intros E. injection E as <- <-. left. repeat split.
    apply select_member_some. eauto. }
  destruct (select_pool st pool_id) as [row|] eqn:P.
  2:{ intros E. injection E as <- <-. right. left. auto. }
  destruct (ride_passed fromisoformat now (p_when_iso row)) eqn:T.
  { intros E. injection E as <- <-. right. left. auto. }
  destruct (p_seats row <=? count_members st pool_id) eqn:F.
  { intros E. injection E as <- <-. right. left. auto. }
  unfold insert_member. cbn [m_pool_id m_email]. rewrite M. simpl.
  intros E. injection E as <- <-. right. right.
  repeat split.
  - now apply select_member_none.
  - exists row. repeat split; auto. apply Z.leb_gt in F. exact F.
Qed.

Lemma join_pool_consistent now st pool_id name email st' r :
  consistent st ->
  join_pool fromisoformat now st pool_id name email = Return (st', r) ->
  consistent st'.
Proof.
  intros C E.
  apply join_pool_cases in E
    as [[-> _] | [[-> _] | (_ & -> & Hnot & row & Hrow & _ & Hcount)]]; auto.
  apply select_pool_in in Hrow as [Hin Hid].
  split.
  - apply (pool_key st C).
  - cbn [members]. apply NoDup_map_snoc; [apply (member_unique st C)|].
    intros Hk. apply in_map_iff in Hk as [m [Hk Hm]].
    unfold member_key in Hk. cbn [m_pool_id m_email] in Hk.
    injection Hk as H1 H2. apply Hnot. exists m. auto.
  - cbn [members pools]. intros m Hm.
    apply in_app_iff in Hm as [Hm | [<- | []]].
    + apply (member_of_pool st C m Hm).
    + exists row. auto.
  - cbn [pools]. intros p Hp. rewrite count_members_snoc. cbn [m_pool_id].
    rewrite db_eta.
    destruct (String.eqb_spec pool_id (p_id p)) as [E | _].
    + assert (p = row) as ->.
      { pose proof (select_pool_unique st p (pool_key st C) Hp) as S1.
        pose proof (select_pool_unique st row (pool_key st C) Hin) as S2.
        rewrite Hid, E in S2. congruence. }
      rewrite <- E. lia.
    + pose proof (within_capacity st C p Hp). lia.
Qed.

Lemma leave_pool_consistent st pool_id email :
  consistent st -> consistent (leave_pool st pool_id email).
Proof.
  intros C. unfold leave_pool, delete_member. split.
  - apply (pool_key st C).
  - cbn [members]. apply NoDup_map_filter, (member_unique st C).
  - cbn [members pools]. intros m Hm. apply filter_In in Hm as [Hm _].
    apply (member_of_pool st C m Hm).
  - cbn [pools]. intros p Hp.
    pose proof (count_members_filter_le (pools st) (members st) (messages st)
                  (fun m => negb (member_matches pool_id email m)) (p_id p)) as L.
    rewrite db_eta in L.
    pose proof (within_capacity st C p Hp). lia.
Qed.

(** The two [DELETE] statements shared by [delete_pool] and by the cleanup. *)
Lemma delete_rows_consistent st pool_id :
  consistent st -> consistent (delete_pool_row (delete_members st pool_id) pool_id).
Proof.
  intros C. unfold delete_pool_row, delete_members. cbn [pools members messages].
  split.
  - unfold pool_ids_unique. cbn [pools].
    apply NoDup_map_filter, (pool_key st C).
  - cbn [members]. apply NoDup_map_filter, (member_unique st C).
  - cbn [members pools]. intros m Hm. apply filter_In in Hm as [Hm Hne].
    destruct (member_of_pool st C m Hm) as [p [Hp Hid]].
    exists p. split; auto. apply filter_In. split; auto. now rewrite Hid.
  - cbn [pools]. intros p Hp. apply filter_In in Hp as [Hp _].
    pose proof (count_members_filter_le (pools st) (members st) (messages st)
                  (fun m => negb (m_pool_id m =? pool_id)%string) (p_id p)) as L.
    rewrite db_eta in L.
    pose proof (within_capacity st C p Hp).
    etransitivity; [|exact H]. etransitivity; [|exact L].
    apply Z.eq_le_incl, count_members_eq. reflexivity.
Qed.

Lemma delete_pool_consistent st pool_id requester_email :
  consistent st -> consistent (fst (delete_pool st pool_id requester_email)).
Proof.
  intros C. unfold delete_pool.
  destruct (select_pool st pool_id) as [row|]; simpl; auto.
  destruct (p_host_email row =? requester_email)%string; simpl; auto.
  now apply delete_rows_consistent.
Qed.

Lemma cleanup_step_consistent now st r :
  consistent st -> consistent (cleanup_step fromisoformat now st r).
Proof.
  intros C. unfold cleanup_step. destruct r as [pid when_iso].
  destruct (fromisoformat when_iso) as [t|]; auto.
  destruct (t <? now); auto.
  now apply delete_rows_consistent.
Qed.

Lemma cleanup_consistent now st :
  consistent st -> consistent (cleanup_expired_pools fromisoformat now st).
Proof.
  unfold cleanup_expired_pools.
  generalize (select_id_when st) as rs.
  intros rs. revert st.
  induction rs as [|r rs IH]; simpl; intros st C; auto.
  apply IH. now apply cleanup_step_consistent.
Qed.

Lemma add_message_consistent now st pool_id sender_name sender_email content st' :
  consistent st ->
  add_message isoformat now st pool_id sender_name sender_email content = Return st' ->
  consistent st'.
Proof.
  intros C. unfold add_message, insert_message.
  destruct (existsb _ _); intros E; [discriminate|].
  injection E as <-.
  destruct C as [C1 C2 C3 C4]. split; auto.
Qed.

Lemma step_consistent st st' :
  consistent st -> step fromisoformat isoformat st st' -> consistent st'.
Proof.
  intros C S. destruct S.
  - eapply add_pool_consistent; eauto. tauto.
  - eapply join_pool_consistent; eauto.
  - now apply leave_pool_consistent.
  - now apply delete_pool_consistent.
  - now apply cleanup_consistent.
  - eapply add_message_consistent; eauto.
Qed.

Lemma reachable_consistent st :
  reachable fromisoformat isoformat st -> consistent st.
Proof.
  induction 1 as [|st st' _ IH S].
  - apply consistent_empty.
  - eapply step_consistent; eauto.
Qed.

End EngineFacts.

(** ** Seats and membership *)

Lemma membership_rows_le_1 ms pool_id email :
  NoDup (map member_key ms) ->
  (List.length (filter (member_matches pool_id email) ms) <= 1)%nat.
Proof.
  induction ms as [|m ms IH]; simpl; intros Hnd; [lia|].
  inversion Hnd as [|? ? Hm Hms]; subst.
  destruct (member_matches pool_id email m) eqn:E; [|auto].
  rewrite filter_none; [simpl; lia|].
  intros m' Hin. destruct (member_matches pool_id email m') eqn:E'; auto.
  exfalso. apply Hm.
  apply member_matches_true in E as [E1 E2].
  apply member_matches_true in E' as [E1' E2'].
  apply in_map_iff. exists m'. split; auto.
  unfold member_key. congruence.
Qed.

Lemma membership_rows_pos st pool_id email :
  is_member st pool_id email -> (1 <= membership_rows st pool_id email)%nat.
Proof.
  intros [m [Hin Hm]]. unfold membership_rows.
  assert (In m (filter (member_matches pool_id email) (members st))) as F.
  { apply filter_In. split; auto. now apply member_matches_true. }
  destruct (filter _ _); [contradiction | simpl; lia].
Qed.

Lemma reachable_db_noon : reachable iso_parse iso_format db_noon.
Proof.
  apply reachable_step with (st := empty_db); [apply reachable_init|].
  apply step_add_pool with (pool := noon_ride).
  - unfold SEATS_MIN, SEATS_MAX. simpl. lia.
  - reflexivity.
Qed.

(** C1, as amended.  In every store that the engine can reach, each pool has
    between zero and [seats] member rows; and [add_pool] puts the pool and its
    host's member row into the store in one transaction, so that the new pool
    starts with exactly one member. *)
Theorem member_count_within_capacity
        (fromisoformat : string -> option Z) (isoformat : Z -> string) (st : db) :
  reachable fromisoformat isoformat st ->
  (forall p, In p (pools st) -> 0 <= count_members st (p_id p) <= p_seats p)
  /\ (forall pool st',
         add_pool st pool = Return st' ->
         In pool (pools st')
         /\ is_member st' (p_id pool) (p_host_email pool)
         /\ count_members st' (p_id pool) = 1).
Proof.
  intros R. pose proof (reachable_consistent _ _ _ R) as C. split.
  - intros p Hp. split; [apply count_members_nonneg | apply (within_capacity st C p Hp)].
  - intros pool st' E.
    pose proof (add_pool_inv _ _ _ E) as [Hnone _].
    rewrite (add_pool_result _ _ _ C E). cbn [pools members]. repeat split.
    + apply in_app_iff. right. now left.
    + eexists. cbn [members]. split; [apply in_app_iff; right; left; reflexivity|].
      split; reflexivity.
    + rewrite count_members_snoc. cbn [m_pool_id]. rewrite String.eqb_refl.
      unfold count_members, select_members. cbn [members].
      rewrite (filter_none _ _ (no_member_of_fresh_pool st (p_id pool) C Hnone)).
      reflexivity.
Qed.

Lemma member_count_within_capacity_witness :
  (forall p, In p (pools db_noon) ->
             0 <= count_members db_noon (p_id p) <= p_seats p)
  /\ (forall pool st',
         add_pool db_noon pool = Return st' ->
         In pool (pools st')
         /\ is_member st' (p_id pool) (p_host_email pool)
         /\ count_members st' (p_id pool) = 1).
Proof.
  exact (member_count_within_capacity iso_parse iso_format db_noon reachable_db_noon).
Defined.

(** C1 fails as stated: once the host has left her own pool, the pool is
    still in the store and has no member. *)
Lemma host_leaves_pool_without_members :
  let st := leave_pool db_noon (p_id noon_ride) (u_email alice) in
  reachable iso_parse iso_format st
  /\ In noon_ride (pools st)
  /\ count_members st (p_id noon_ride) = 0
  /\ ~ (1 <= count_members st (p_id noon_ride) <= p_seats noon_ride).
Proof.
  cbv zeta. split; [|split; [|split]].
  - eapply reachable_step; [apply reachable_db_noon | apply step_leave_pool].
  - left. reflexivity.
  - reflexivity.
  - vm_compute. intros [H _]. apply H. reflexivity.
Qed.

(** C2, as amended.  When a pool has as many member rows as seats (or more),
    [join_pool] for an email that holds no seat in it never answers "Joined"
    and leaves the store as it is: the answer is "Pool is full" when the ride
    time has not passed, and "Ride time has passed" when it has. *)
Theorem join_full_pool_refused
        (fromisoformat : string -> option Z) (now : Z) (st : db)
        (pool_id name email : string) (row : pool_row) :
  select_pool st pool_id = Some row ->
  p_seats row <= count_members st pool_id ->
  ~ is_member st pool_id email ->
  join_pool fromisoformat now st pool_id name email =
  Return (st, (false,
               if ride_passed fromisoformat now (p_when_iso row)
               then "Ride time has passed" else "Pool is full")).
Proof.
  intros Hrow Hfull Hnot. unfold join_pool.
  apply select_member_none in Hnot. rewrite Hnot, Hrow.
  destruct (ride_passed fromisoformat now (p_when_iso row)); auto.
  apply Z.leb_le in Hfull. now rewrite Hfull.
Qed.

Lemma not_member_bob_noon : ~ is_member db_noon (p_id noon_ride) (u_email bob).
Proof. apply select_member_none. reflexivity. Qed.

Lemma join_full_pool_refused_witness :
  join_pool iso_parse ten_o_clock db_noon (p_id noon_ride) "Bob" (u_email bob)
  = Return (db_noon, (false, "Pool is full")).
Proof.
  apply (join_full_pool_refused iso_parse ten_o_clock db_noon
           (p_id noon_ride) "Bob" (u_email bob) noon_ride).
  - reflexivity.
  - vm_compute. discriminate.
  - exact not_member_bob_noon.
Defined.

(** C2 fails as stated: a full pool whose ride time has passed answers
    "Ride time has passed", not "Pool is full". *)
Lemma join_full_expired_pool_not_pool_full :
  let now := ten_o_clock + 3 * one_hour in
  select_pool db_noon (p_id noon_ride) = Some noon_ride
  /\ count_members db_noon (p_id noon_ride) = p_seats noon_ride
  /\ ~ is_member db_noon (p_id noon_ride) (u_email bob)
  /\ join_pool iso_parse now db_noon (p_id noon_ride) "Bob" (u_email bob)
     = Return (db_noon, (false, "Ride time has passed"))
  /\ join_pool iso_parse now db_noon (p_id noon_ride) "Bob" (u_email bob)
     <> Return (db_noon, (false, "Pool is full")).
Proof.
  cbv zeta. repeat split.
  - exact not_member_bob_noon.
  - vm_compute. discriminate.
Qed.

(** C3.  When the pair (pool, email) already has a member row, [join_pool]
    answers success with "Already joined" and returns the store unchanged, so
    a repeated call meets the same store and does the same; the pair has exactly one
    row, and in a reachable store no pair has more than one. *)
Theorem join_pool_idempotent
        (fromisoformat : string -> option Z) (isoformat : Z -> string)
        (now : Z) (st : db) (pool_id name email : string) :
  reachable fromisoformat isoformat st ->
  is_member st pool_id email ->
  join_pool fromisoformat now st pool_id name email
  = Return (st, (true, "Already joined"))
  /\ membership_rows st pool_id email = 1%nat
  /\ (forall pool_id' email', (membership_rows st pool_id' email' <= 1)%nat).
Proof.
  intros R M. pose proof (reachable_consistent _ _ _ R) as C.
  assert (forall pool_id' email', (membership_rows st pool_id' email' <= 1)%nat) as U.
  { intros. apply membership_rows_le_1, (member_unique st C). }
  repeat split; auto.
  - unfold join_pool. apply select_member_some in M as [m ->]. reflexivity.
  - pose proof (membership_rows_pos _ _ _ M). specialize (U pool_id email). lia.
Qed.

Lemma is_member_alice_noon : is_member db_noon (p_id noon_ride) (u_email alice).
Proof. apply select_member_some. eexists. reflexivity. Qed.

Lemma join_pool_idempotent_witness :
  join_pool iso_parse ten_o_clock db_noon (p_id noon_ride) "Alice" (u_email alice)
  = Return (db_noon, (true, "Already joined"))
  /\ membership_rows db_noon (p_id noon_ride) (u_email alice) = 1%nat
  /\ (forall pool_id' email', (membership_rows db_noon pool_id' email' <= 1)%nat).
Proof.
  exact (join_pool_idempotent iso_parse iso_format ten_o_clock db_noon
           (p_id noon_ride) "Alice" (u_email alice)
           reachable_db_noon is_member_alice_noon).
Defined.

(** X23.  The SQLite arm of [delete_pool], which is the same in both files,
    answers true exactly when the pool exists and the requester's email is
    its host's: it then deletes the member rows of the pool and after them
    the pool row, and nothing else.  In every other case it answers false and
    returns the store as it was. *)
Theorem delete_pool_host_only (st : db) (pool_id requester_email : string) :
  pool_ids_unique st ->
  let hosted :=
    exists p, In p (pools st) /\ p_id p = pool_id /\ p_host_email p = requester_email in
  (hosted ->
   let st' := delete_pool_row (delete_members st pool_id) pool_id in
   delete_pool st pool_id requester_email = (st', true)
   /\ (forall m, In m (members st') <-> In m (members st) /\ m_pool_id m <> pool_id)
   /\ (forall p, In p (pools st') <-> In p (pools st) /\ p_id p <> pool_id)
   /\ messages st' = messages st)
  /\ (~ hosted -> delete_pool st pool_id requester_email = (st, false)).
Proof.
  intros U hosted. split.
  - intros [p (Hin & Hid & Hhost)]. cbv zeta. repeat split.
    + unfold delete_pool. subst pool_id.
      rewrite (select_pool_unique st p U Hin).
      apply String.eqb_eq in Hhost. now rewrite Hhost.
    + cbn [members delete_pool_row delete_members] in H.
      now apply filter_In in H.
    + cbn [members delete_pool_row delete_members] in H.
      apply filter_In in H as [_ H]. apply negb_true_iff, String.eqb_neq in H. exact H.
    + intros [H1 H2]. cbn [members delete_pool_row delete_members].
      apply filter_In. split; auto. now apply negb_true_iff, String.eqb_neq.
    + cbn [pools delete_pool_row delete_members] in H.
      now apply filter_In in H.
    + cbn [pools delete_pool_row delete_members] in H.
      apply filter_In in H as [_ H]. apply negb_true_iff, String.eqb_neq in H. exact H.
    + intros [H1 H2]. cbn [pools delete_pool_row delete_members].
      apply filter_In. split; auto. now apply negb_true_iff, String.eqb_neq.
  - intros Hnot. unfold delete_pool.
    destruct (select_pool st pool_id) as [row|] eqn:S; auto.
    destruct (String.eqb_spec (p_host_email row) requester_email) as [E | _]; auto.
    exfalso. apply Hnot. apply select_pool_in in S as [Hin Hid].
    exists row. auto.
Qed.

Lemma pool_ids_unique_db_two_rides : pool_ids_unique db_two_rides.
Proof.
  unfold pool_ids_unique. simpl.
  constructor; [|constructor; [intros [] | constructor]].
  intros [H | []]. discriminate H.
Qed.

Lemma delete_pool_host_only_witness :
  delete_pool db_two_rides (p_id noon_ride) (u_email alice)
  = (mk_db [one_ride]
           [mk_member (p_id one_ride) "Bob" (u_email bob)] [], true)
  /\ delete_pool db_two_rides (p_id noon_ride) (u_email bob) = (db_two_rides, false).
Proof.
  pose proof (delete_pool_host_only db_two_rides (p_id noon_ride) (u_email alice)
                pool_ids_unique_db_two_rides) as [Yes _].
  pose proof (delete_pool_host_only db_two_rides (p_id noon_ride) (u_email bob)
                pool_ids_unique_db_two_rides) as [_ No].
  split.
  - destruct Yes as [E _].
    + exists noon_ride. repeat split. left. reflexivity.
    + exact E.
  - apply No. intros [p (Hin & Hid & Hhost)].
    destruct Hin as [<- | [<- | []]]; discriminate.
Defined.

(** C4 is not met by the Supabase arm of poolpreset.py.  Where the stored
    procedure does not answer, the fallback deletes the pool row and no
    member row, whatever the store and the requester.  With Alice's and Bob's
    rides in the tables, Alice, the host, deletes her ride: the answer is
    True, her ride is gone, and her member row is still there, so that she
    is a member of a pool that does not exist; when the row level security
    lets the request delete nothing, the host is answered False.  On the
    same tables the SQLite arm and the Supabase arm of pool.py delete her
    member row with the ride. *)
Theorem delete_pool_fallback_keeps_member_rows :
  let st := db_two_rides in
  let pool_id := p_id noon_ride in
  let host := u_email alice in
  let missing := Raise OperationalError in
  (forall e rls_allows st0 pool_id0 requester_email,
      members (fst (PoolPreset.delete_pool_supabase (Raise e) st0 rls_allows st0
                      pool_id0 requester_email))
      = members st0)
  /\ PoolPreset.delete_pool_supabase missing st true st pool_id host
     = (mk_db [one_ride] (members st) [], true)
  /\ select_pool (fst (PoolPreset.delete_pool_supabase missing st true st pool_id host))
                 pool_id = None
  /\ is_user_member (fst (PoolPreset.delete_pool_supabase missing st true st pool_id host))
                    pool_id host = true
  /\ PoolPreset.delete_pool_supabase missing st false st pool_id host = (st, false)
  /\ delete_pool st pool_id host
     = (mk_db [one_ride] [mk_member (p_id one_ride) "Bob" (u_email bob)] [], true)
  /\ Pool.delete_pool_supabase st pool_id host = delete_pool st pool_id host.
Proof.
  cbv zeta. split.
  - intros e rls_allows st0 pool_id0 requester_email.
    unfold PoolPreset.delete_pool_supabase, PoolPreset.delete_pool_fallback.
    destruct (select_pool st0 pool_id0) as [row|]; [|reflexivity].
    destruct (negb (p_host_email row =? requester_email)%string); [reflexivity|].
    destruct rls_allows; reflexivity.
  - repeat split; vm_compute; reflexivity.
Qed.

(** ** Expiry *)

Section Cleanup.

Variable fromisoformat : string -> option Z.
Variable now : Z.

Lemma ride_passed_true p :
  ride_passed fromisoformat now (p_when_iso p) = true
  <-> departs_before fromisoformat now p.
Proof.
  unfold ride_passed, departs_before. split.
  - destruct (fromisoformat (p_when_iso p)) as [t|]; [|discriminate].
    intros H. apply Z.ltb_lt in H. eauto.
  - intros [t [-> H]]. now apply Z.ltb_lt.
Qed.

Lemma ride_passed_false p :
  ride_passed fromisoformat now (p_when_iso p) = false
  <-> ~ departs_before fromisoformat now p.
Proof.
  rewrite <- ride_passed_true. now destruct (ride_passed _ _ _).
Qed.

Lemma cleanup_step_eq st pid when_iso :
  cleanup_step fromisoformat now st (pid, when_iso) =
  if ride_passed fromisoformat now when_iso
  then delete_pool_row (delete_members st pid) pid else st.
Proof.
  unfold cleanup_step, ride_passed.
  destruct (fromisoformat when_iso); reflexivity.
Qed.

Lemma cleanup_fold rs st :
  fold_left (cleanup_step fromisoformat now) rs st =
  mk_db (filter (fun p => negb (reaped fromisoformat now rs (p_id p))) (pools st))
        (filter (fun m => negb (reaped fromisoformat now rs (m_pool_id m))) (members st))
        (messages st).
Proof.
  revert st. induction rs as [|[pid w] rs IH]; intros st.
  - simpl. rewrite !filter_all by reflexivity. symmetry. apply db_eta.
  - cbn [fold_left]. rewrite IH, cleanup_step_eq. cbn [reaped existsb fst snd].
    destruct (ride_passed fromisoformat now w).
    + cbn [delete_pool_row delete_members pools members messages].
      rewrite !filter_filter. f_equal.
      * apply filter_ext_in'. intros p _.
        rewrite andb_true_r, negb_orb. reflexivity.
      * apply filter_ext_in'. intros m _.
        rewrite andb_true_r, negb_orb. reflexivity.
    + f_equal.
      * apply filter_ext_in'. intros p _. now rewrite andb_false_r.
      * apply filter_ext_in'. intros m _. now rewrite andb_false_r.
Qed.

Lemma reaped_iff st pid :
  reaped fromisoformat now (select_id_when st) pid = true
  <-> exists p, In p (pools st) /\ p_id p = pid
                /\ departs_before fromisoformat now p.
Proof.
  unfold reaped. rewrite existsb_exists. split.
  - intros [r [Hin Hr]]. apply in_map_iff in Hin as [p [<- Hin]].
    cbn [fst snd] in Hr. apply andb_true_iff in Hr as [E T].
    apply String.eqb_eq in E. apply ride_passed_true in T.
    exists p. auto.
  - intros [p (Hin & Hid & T)].
    exists (p_id p, p_when_iso p). split.
    + apply in_map_iff. eauto.
    + cbn [fst snd]. apply andb_true_iff. split.
      * now apply String.eqb_eq.
      * now apply ride_passed_true.
Qed.

Lemma same_id_same_row st p q :
  pool_ids_unique st -> In p (pools st) -> In q (pools st) ->
  p_id p = p_id q -> p = q.
Proof.
  intros U Hp Hq E.
  pose proof (select_pool_unique st p U Hp) as Sp.
  pose proof (select_pool_unique st q U Hq) as Sq.
  rewrite E in Sp. congruence.
Qed.

(** What the cleanup leaves: the pools that have not departed, in their
    order, and the member rows of pools that have not departed. *)
Lemma cleanup_result st :
  pool_ids_unique st ->
  cleanup_expired_pools fromisoformat now st =
  mk_db (filter (fun p => negb (ride_passed fromisoformat now (p_when_iso p)))
                (pools st))
        (filter (fun m => negb (reaped fromisoformat now (select_id_when st)
                                       (m_pool_id m)))
                (members st))
        (messages st).
Proof.
  intros U. unfold cleanup_expired_pools. rewrite cleanup_fold. f_equal.
  apply filter_ext_in'. intros p Hp. f_equal.
  destruct (ride_passed fromisoformat now (p_when_iso p)) eqn:T.
  - apply reaped_iff. exists p. repeat split; auto. now apply ride_passed_true.
  - destruct (reaped _ _ _ (p_id p)) eqn:R; auto.
    apply reaped_iff in R as [q (Hq & Hid & Tq)].
    rewrite (same_id_same_row st q p U Hq Hp Hid) in Tq.
    apply ride_passed_true in Tq. congruence.
Qed.

Lemma cleanup_nothing_due st :
  (forall p, In p (pools st) ->
             ride_passed fromisoformat now (p_when_iso p) = false) ->
  cleanup_expired_pools fromisoformat now st = st.
Proof.
  intros H. unfold cleanup_expired_pools. rewrite cleanup_fold.
  assert (forall pid,
             reaped fromisoformat now (select_id_when st) pid = false)
    as N.
  { intros pid. destruct (reaped _ _ _ pid) eqn:R; auto.
    apply reaped_iff in R as [p (Hp & _ & T)].
    apply ride_passed_true in T. rewrite (H p Hp) in T. discriminate. }
  rewrite !filter_all by (intros; now rewrite N).
  apply db_eta.
Qed.

End Cleanup.

(** C5.  [cleanup_expired_pools] keeps exactly the pools whose departure
    time is not strictly before the evaluation instant, and exactly the member
    rows of such pools; a pool that has departed goes with all its member
    rows, a pool that has not keeps all of them.  Running it again at once
    changes nothing, and on an empty store it does nothing. *)
Theorem cleanup_expired_pools_spec
        (fromisoformat : string -> option Z) (now : Z) (st : db) :
  pool_ids_unique st ->
  let st' := cleanup_expired_pools fromisoformat now st in
  (forall p, In p (pools st') <->
             In p (pools st) /\ ~ departs_before fromisoformat now p)
  /\ (forall m, In m (members st') <->
                In m (members st)
                /\ ~ exists p, In p (pools st) /\ p_id p = m_pool_id m
                               /\ departs_before fromisoformat now p)
  /\ (forall p, In p (pools st) -> departs_before fromisoformat now p ->
                ~ In p (pools st') /\ select_members st' (p_id p) = [])
  /\ (forall p, In p (pools st) -> ~ departs_before fromisoformat now p ->
                In p (pools st')
                /\ select_members st' (p_id p) = select_members st (p_id p))
  /\ cleanup_expired_pools fromisoformat now st' = st'
  /\ cleanup_expired_pools fromisoformat now empty_db = empty_db.
Proof.
  intros U st'.
  assert (forall p, In p (pools st') <->
                    In p (pools st) /\ ~ departs_before fromisoformat now p) as P.
  { intros p. subst st'. rewrite (cleanup_result _ _ _ U). cbn [pools].
    rewrite filter_In, negb_true_iff, ride_passed_false. reflexivity. }
  assert (forall m, In m (members st') <->
                    In m (members st)
                    /\ ~ exists p, In p (pools st) /\ p_id p = m_pool_id m
                                   /\ departs_before fromisoformat now p) as M.
  { intros m. subst st'. rewrite (cleanup_result _ _ _ U). cbn [members].
    rewrite filter_In, negb_true_iff, <- reaped_iff.
    now destruct (reaped _ _ _ _). }
  split; [exact P|]. split; [exact M|]. split; [|split; [|split]].
  - intros p Hp T. split.
    + intros Hin. apply P in Hin as [_ N]. contradiction.
    + unfold select_members. apply filter_none. intros m Hm.
      apply String.eqb_neq. intros E. apply M in Hm as [_ N]. apply N.
      exists p. auto.
  - intros p Hp T. split.
    + apply P. auto.
    + unfold select_members. subst st'. rewrite (cleanup_result _ _ _ U).
      cbn [members]. rewrite filter_filter. apply filter_ext_in'. intros m Hm.
      destruct (String.eqb_spec (m_pool_id m) (p_id p)) as [E | _];
        [|apply andb_false_r].
      rewrite andb_true_r. apply negb_true_iff.
      destruct (reaped _ _ _ _) eqn:R; auto.
      apply reaped_iff in R as [q (Hq & Hid & Tq)].
      rewrite (same_id_same_row st q p U Hq Hp) in Tq by congruence.
      contradiction.
  - apply cleanup_nothing_due. intros p Hp.
    apply ride_passed_false. now apply P in Hp.
  - reflexivity.
Qed.

Lemma cleanup_expired_pools_spec_witness :
  let now := ten_o_clock + 150 * one_minute in
  let st' := cleanup_expired_pools iso_parse now db_two_rides in
  st' = mk_db [one_ride] [mk_member (p_id one_ride) "Bob" (u_email bob)] []
  /\ (forall p, In p (pools st') <->
                In p (pools db_two_rides) /\ ~ departs_before iso_parse now p)
  /\ cleanup_expired_pools iso_parse now st' = st'.
Proof.
  intros now st'.
  pose proof (cleanup_expired_pools_spec iso_parse now db_two_rides
                pool_ids_unique_db_two_rides) as (P & _ & _ & _ & I & _).
  split; [vm_compute; reflexivity|]. split; [exact P | exact I].
Defined.

(** ** Spam guard *)

Section SpamGuard.

Variable fromisoformat : string -> option Z.

Lemma can_host_create_rows_false since rows :
  can_host_create_rows fromisoformat since rows = false
  <-> exists c t, In c rows /\ fromisoformat c = Some t /\ since <= t.
Proof.
  induction rows as [|c rows IH]; simpl.
  - split; [discriminate | intros (c & t & [] & _)].
  - destruct (fromisoformat c) as [t|] eqn:P.
    + destruct (since <=? t) eqn:L.
      * split; auto. intros _. apply Z.leb_le in L. exists c, t. auto.
      * rewrite IH. apply Z.leb_gt in L. split.
        -- intros (c' & t' & Hin & Hp & Hl). exists c', t'. auto.
        -- intros (c' & t' & [<- | Hin] & Hp & Hl).
           ++ rewrite P in Hp. injection Hp as ->. lia.
           ++ exists c', t'. auto.
    + rewrite IH. split.
      * intros (c' & t' & Hin & Hp & Hl). exists c', t'. auto.
      * intros (c' & t' & [<- | Hin] & Hp & Hl).
        -- congruence.
        -- exists c', t'. auto.
Qed.

(** The guard refuses exactly when some pool of that host carries a
    creation stamp that is read and is not older than the cooldown. *)
Lemma can_host_create_false now st email :
  can_host_create fromisoformat now st email = false
  <-> exists p t, In p (pools st) /\ created_by_at fromisoformat email t p
                  /\ now - timedelta_minutes COOLDOWN_MINUTES <= t.
Proof.
  unfold can_host_create, can_host_create_on, select_created_at, created_by_at.
  rewrite can_host_create_rows_false. split.
  - intros (c & t & Hin & Hp & Hl).
    apply in_map_iff in Hin as [p [<- Hin]].
    apply filter_In in Hin as [Hin He]. apply String.eqb_eq in He.
    exists p, t. auto.
  - intros (p & t & Hin & [He Hp] & Hl).
    exists (p_created_at p), t. repeat split; auto.
    apply in_map. apply filter_In. split; auto. now apply String.eqb_eq.
Qed.

Lemma can_host_create_true now st email :
  can_host_create fromisoformat now st email = true
  <-> forall p t, In p (pools st) -> created_by_at fromisoformat email t p ->
                  t < now - timedelta_minutes COOLDOWN_MINUTES.
Proof.
  pose proof (can_host_create_false now st email) as F.
  destruct (can_host_create fromisoformat now st email).
  - split; auto. intros _ p t Hin Hc.
    destruct (Z.lt_ge_cases t (now - timedelta_minutes COOLDOWN_MINUTES)); auto.
    assert (true = false); [|discriminate].
    apply F. exists p, t. auto.
  - split; [discriminate|]. intros H.
    destruct F as [F _]. destruct (F eq_refl) as (p & t & Hin & Hc & Hl).
    specialize (H p t Hin Hc). lia.
Qed.

End SpamGuard.

Lemma add_pool_pools st pool st' :
  add_pool st pool = Return st' -> pools st' = (pools st ++ [pool])%list.
Proof.
  intros E. apply add_pool_inv in E as [_ ->].
  unfold insert_or_ignore_member. now destruct (select_member _ _ _).
Qed.





(** C10.  When the query of [can_host_create] raises, under either backend,
    the guard answers true: a failing store lets the creation through. *)
Theorem spam_guard_fails_open
        (fromisoformat : string -> option Z) (now : Z) (r : store_reply) :
  reply_raised r -> can_host_create_on fromisoformat now r = true.
Proof.
  destruct r as [[rows | e] | [data | e]]; simpl; intros H;
    solve [contradiction | reflexivity].
Qed.

Lemma spam_guard_fails_open_witness :
  can_host_create_on iso_parse ten_o_clock (SqliteRows (Raise OperationalError)) = true
  /\ can_host_create_on iso_parse ten_o_clock (SupabaseData (Raise OperationalError))
     = true.
Proof.
  split.
  - exact (spam_guard_fails_open iso_parse ten_o_clock
             (SqliteRows (Raise OperationalError)) I).
  - exact (spam_guard_fails_open iso_parse ten_o_clock
             (SupabaseData (Raise OperationalError)) I).
Defined.

(** ** Creating a pool *)

(** C7, as amended.  A request whose departure time lies strictly before the
    evaluation instant is refused with "Please pick a future time." and the
    store is left as it was; in [pool.py] this holds for a request that names
    a destination, and a request that names none is refused for that reason
    first. *)
Theorem create_pool_rejects_past_time
        (fromisoformat : string -> option Z) (isoformat : Z -> string)
        (now : Z) (st : db) (usr : user) (when_dt : Z)
        (mode pickup : string) (seats : Z) (notes : string) :
  when_dt < now ->
  (forall dest_name,
      PoolPreset.create_pool_ui fromisoformat isoformat now st usr dest_name
                                when_dt mode pickup seats notes
      = Return (st, st_error "Please pick a future time."))
  /\ (forall dest,
         Pool.create_pool_ui fromisoformat isoformat now st usr (Some dest)
                             when_dt mode pickup seats notes
         = Return (st, st_error "Please pick a future time."))
  /\ Pool.create_pool_ui fromisoformat isoformat now st usr None
                         when_dt mode pickup seats notes
     = Return (st, st_error "Please search and select a destination.").
Proof.
  intros H. apply Z.ltb_lt in H.
  unfold PoolPreset.create_pool_ui, Pool.create_pool_ui. rewrite H. auto.
Qed.

Lemma create_pool_rejects_past_time_witness :
  PoolPreset.create_pool_ui iso_parse iso_format ten_o_clock db_noon bob "JBS"
                            (ten_o_clock - 1) "Cab" "Mess 1" 3 ""
  = Return (db_noon, st_error "Please pick a future time.").
Proof.
  assert (ten_o_clock - 1 < ten_o_clock) as H by (vm_compute; reflexivity).
  exact (proj1 (create_pool_rejects_past_time iso_parse iso_format ten_o_clock
                  db_noon bob (ten_o_clock - 1) "Cab" "Mess 1" 3 "" H) "JBS").
Defined.

(** C7 fails as stated: a departure time equal to the evaluation instant is
    let through, and the pool is written. *)
Lemma create_pool_accepts_departure_now :
  PoolPreset.create_pool_ui iso_parse iso_format ten_o_clock empty_db alice "JBS"
                            ten_o_clock "Cab" "Mess 1" 3 ""
  = Return (mk_db [mk_pool "pool_1893492000000" "jbs" "JBS" 0%Q 0%Q
                           "2030-01-01T10:00:00" 3 "Cab" "" "Alice"
                           "alice@hyderabad.bits-pilani.ac.in"
                           "2030-01-01T10:00:00" "Mess 1"]
                  [mk_member "pool_1893492000000" "Alice"
                             "alice@hyderabad.bits-pilani.ac.in"]
                  [],
            st_success "Pool created!")
  /\ Pool.create_pool_ui iso_parse iso_format ten_o_clock empty_db alice
                         (Some (Pool.mk_dest (Some "place_1") "JBS" 0%Q 0%Q
                                             "Secunderabad"))
                         ten_o_clock "Cab" "Mess 1" 3 ""
     = Return (mk_db [mk_pool "pool_1893492000000" "place_1" "JBS" 0%Q 0%Q
                              "2030-01-01T10:00:00" 3 "Cab" "" "Alice"
                              "alice@hyderabad.bits-pilani.ac.in"
                              "2030-01-01T10:00:00" "Mess 1"]
                     [mk_member "pool_1893492000000" "Alice"
                                "alice@hyderabad.bits-pilani.ac.in"]
                     [],
               st_success "Pool created!").
Proof. split; vm_compute; reflexivity. Qed.

(** ** The list of pools and the chat *)

(** C8 is not met by the code.  Both [pools_list_ui] put the shared pool at
    the head of the list and sort the list afterwards, so the list that is
    rendered is in chronological order whatever the focus.  With Alice's ride
    at noon and Bob's at one, and Bob's ride as the focus, the block under
    "bring it to top" yields Bob's ride first, and both handlers render
    Alice's ride first. *)
Theorem focus_pool_is_sorted_away (haversine_km : Pool.coords -> Pool.coords -> Q) :
  let focus := Some (p_id one_ride) in
  let listed := list_future_pools iso_parse ten_o_clock db_two_rides in
  map v_id listed = [p_id noon_ride; p_id one_ride]
  /\ map v_id (focus_to_top focus listed) = [p_id one_ride; p_id noon_ride]
  /\ snd (PoolPreset.pools_list_ui iso_parse ten_o_clock db_two_rides None focus
                                   "All destinations" "Any pickup")
     = listed
  /\ snd (Pool.pools_list_ui iso_parse haversine_km ten_o_clock db_two_rides
                             focus None None)
     = Return listed.
Proof.
  cbv zeta. repeat split; vm_compute; reflexivity.
Qed.

(** C9 is not met by the code.  With 201 messages in a pool and the default
    limit of 200, [list_messages] returns the 200 oldest messages, oldest
    first, and leaves out the newest one; the 200 most recent messages are the
    ones after the first. *)
Theorem list_messages_keeps_oldest :
  let st := db_chat 201 in
  let shown := list_messages st (p_id noon_ride) 200 in
  List.length (messages st) = 201%nat
  /\ shown = firstn 200 (messages st)
  /\ shown <> skipn 1 (messages st)
  /\ map g_id (skipn 200 (messages st)) = ["msg_1893492200000"]
  /\ existsb (fun g => (g_id g =? "msg_1893492200000")%string) shown = false.
Proof.
  cbv zeta. split; [|split; [|split; [|split]]].
  - vm_compute. reflexivity.
  - vm_compute. reflexivity.
  - intros H. apply (f_equal (fun l => map g_id (firstn 1 l))) in H.
    vm_compute in H. discriminate H.
  - vm_compute. reflexivity.
  - vm_compute. reflexivity.
Qed.

(** ** Leaving, joining and deleting, one after the other *)

Lemma is_user_member_true st pool_id email :
  is_user_member st pool_id email = true <-> is_member st pool_id email.
Proof.
  unfold is_user_member. rewrite select_member_some.
  destruct (select_member st pool_id email) as [m|]; split.
  - eauto.
  - reflexivity.
  - discriminate.
  - intros [m E]. discriminate.
Qed.

Lemma member_matches_false pool_id email m :
  member_matches pool_id email m = false <->
  member_key m <> (pool_id, email).
Proof.
  rewrite <- not_true_iff_false, member_matches_true. unfold member_key.
  split.
  - intros H E. injection E as E1 E2. auto.
  - intros H [E1 E2]. apply H. congruence.
Qed.

Lemma filter_split_length {A : Type} (f g : A -> bool) (l : list A) :
  List.length (filter f l) =
  (List.length (filter (fun x => f x && negb (g x)) l)
   + List.length (filter (fun x => f x && g x) l))%nat.
Proof.
  induction l as [|x l IH]; simpl; auto.
  destruct (f x), (g x); simpl; lia.
Qed.

(** X1.  [leave_pool] deletes the rows of the pair (pool, email) and no other
    row: afterwards the email holds no seat in the pool, every other member
    row, every pool and every message is as before; leaving a pool one is not in
    changes nothing, and so does leaving twice; and whether [delete_pool]
    would accept a requester does not depend on who has left. *)
Theorem leave_pool_removes_that_seat_only (st : db) (pool_id email : string) :
  let st' := leave_pool st pool_id email in
  ~ is_member st' pool_id email
  /\ (forall m, In m (members st') <->
                In m (members st) /\ member_key m <> (pool_id, email))
  /\ pools st' = pools st
  /\ messages st' = messages st
  /\ (~ is_member st pool_id email -> st' = st)
  /\ leave_pool st' pool_id email = st'
  /\ (forall pid requester,
         snd (delete_pool st' pid requester) = snd (delete_pool st pid requester)).
Proof.
  cbv zeta.
  assert (forall m, In m (members (leave_pool st pool_id email)) <->
                    In m (members st) /\ member_key m <> (pool_id, email)) as M.
  { intros m. unfold leave_pool, delete_member. cbn [members].
    rewrite filter_In, negb_true_iff, member_matches_false. reflexivity. }
  assert (forall s, ~ is_member s pool_id email -> leave_pool s pool_id email = s) as N.
  { intros s H. unfold leave_pool, delete_member.
    rewrite filter_all; [apply db_eta|].
    intros m Hin. apply negb_true_iff.
    destruct (member_matches pool_id email m) eqn:E; auto.
    exfalso. apply H. apply member_matches_true in E. exists m. tauto. }
  assert (~ is_member (leave_pool st pool_id email) pool_id email) as G.
  { intros [m (Hin & E1 & E2)]. apply M in Hin as [_ Hk].
    apply Hk. unfold member_key. congruence. }
  split; [exact G|]. split; [exact M|]. split; [reflexivity|].
  split; [reflexivity|]. split; [apply N|]. split; [apply N, G|].
  intros pid requester. unfold delete_pool, select_pool. cbn [leave_pool delete_member pools].
  destruct (find _ (pools st)) as [row|]; auto.
  destruct (p_host_email row =? requester)%string; reflexivity.
Qed.

(** X2.  In a store that the engine can reach, a member who leaves frees
    exactly one seat of that pool and no seat of any other pool. *)
Theorem leave_pool_frees_one_seat
        (fromisoformat : string -> option Z) (isoformat : Z -> string)
        (st : db) (pool_id email : string) :
  reachable fromisoformat isoformat st ->
  is_member st pool_id email ->
  count_members (leave_pool st pool_id email) pool_id
  = count_members st pool_id - 1
  /\ (forall pid, pid <> pool_id ->
                  count_members (leave_pool st pool_id email) pid
                  = count_members st pid).
Proof.
  intros R M. pose proof (reachable_consistent _ _ _ R) as C.
  unfold count_members, select_members, leave_pool, delete_member. cbn [members].
  split.
  - rewrite filter_filter.
    rewrite (filter_split_length (fun m => (m_pool_id m =? pool_id)%string)
               (member_matches pool_id email) (members st)).
    assert (List.length
              (filter (fun x => (m_pool_id x =? pool_id)%string
                                && member_matches pool_id email x) (members st))
            = 1%nat) as ->.
    { rewrite (filter_ext_in' _ (member_matches pool_id email)).
      - pose proof (membership_rows_le_1 (members st) pool_id email
                      (member_unique st C)).
        pose proof (membership_rows_pos st pool_id email M) as P.
        unfold membership_rows in P. lia.
      - intros m _. unfold member_matches.
        destruct (m_pool_id m =? pool_id)%string; reflexivity. }
    rewrite (filter_ext_in'
               (fun x => negb (member_matches pool_id email x)
                         && (m_pool_id x =? pool_id)%string)
               (fun x => (m_pool_id x =? pool_id)%string
                         && negb (member_matches pool_id email x)))
      by (intros; apply andb_comm).
    lia.
  - intros pid Hne. rewrite filter_filter. f_equal. f_equal.
    apply filter_ext_in'. intros m _.
    destruct (String.eqb_spec (m_pool_id m) pid) as [E | _];
      [|apply andb_false_r].
    rewrite andb_true_r. apply negb_true_iff, member_matches_false.
    unfold member_key. congruence.
Qed.

Lemma leave_pool_frees_one_seat_witness :
  count_members (leave_pool db_two_rides (p_id one_ride) (u_email bob))
                (p_id one_ride) = 0
  /\ count_members (leave_pool db_two_rides (p_id one_ride) (u_email bob))
                   (p_id noon_ride) = 1.
Proof.
  assert (reachable iso_parse iso_format db_two_rides) as R.
  { apply reachable_step with (st := db_noon); [apply reachable_db_noon|].
    apply step_add_pool with (pool := one_ride).
    - unfold SEATS_MIN, SEATS_MAX. simpl. lia.
    - reflexivity. }
  assert (is_member db_two_rides (p_id one_ride) (u_email bob)) as M.
  { apply select_member_some. eexists. reflexivity. }
  destruct (leave_pool_frees_one_seat iso_parse iso_format db_two_rides
              (p_id one_ride) (u_email bob) R M) as [E1 E2].
  split.
  - exact E1.
  - apply (E2 (p_id noon_ride)). discriminate.
Defined.

(** X3.  [join_pool] never raises: the INSERT is reached only when the pair
    has no row, so the UNIQUE constraint cannot fail.  It answers one of five
    messages, success goes with "Joined" and "Already joined" only, and the
    store changes only with "Joined", by the one new member row at the end of
    the table. *)
Theorem join_pool_never_raises
        (fromisoformat : string -> option Z) (now : Z) (st : db)
        (pool_id name email : string) :
  exists st' ok msg,
    join_pool fromisoformat now st pool_id name email = Return (st', (ok, msg))
    /\ In msg ["Already joined"; "Pool not found"; "Ride time has passed";
               "Pool is full"; "Joined"]
    /\ (ok = true <-> msg = "Joined" \/ msg = "Already joined")
    /\ (msg <> "Joined" -> st' = st)
    /\ (msg = "Joined" ->
        st' = mk_db (pools st) (members st ++ [mk_member pool_id name email])
                    (messages st)).
Proof.
  unfold join_pool.
  destruct (select_member st pool_id email) eqn:M.
  { exists st, true, "Already joined". repeat split; simpl; auto; try discriminate. }
  destruct (select_pool st pool_id) as [row|].
  2:{ exists st, false, "Pool not found".
      repeat split; simpl; auto; try discriminate.
      intros [H | H]; discriminate. }
  destruct (ride_passed fromisoformat now (p_when_iso row)).
  { exists st, false, "Ride time has passed".
    repeat split; simpl; auto; try discriminate.
    intros [H | H]; discriminate. }
  destruct (p_seats row <=? count_members st pool_id).
  { exists st, false, "Pool is full".
    repeat split; simpl; auto 6; try discriminate.
    intros [H | H]; discriminate. }
  unfold insert_member. cbn [m_pool_id m_email]. rewrite M. cbn [bind].
  eexists _, true, "Joined". repeat split; simpl; auto 6.
  intros H. contradiction.
Qed.

Lemma join_pool_joined_inv fromisoformat now st st' pool_id name email :
  join_pool fromisoformat now st pool_id name email = Return (st', (true, "Joined")) ->
  ~ is_member st pool_id email
  /\ (exists row, select_pool st pool_id = Some row
                  /\ ride_passed fromisoformat now (p_when_iso row) = false
                  /\ count_members st pool_id < p_seats row)
  /\ st' = mk_db (pools st) (members st ++ [mk_member pool_id name email])
                 (messages st).
Proof.
  intros E. apply join_pool_cases in E
    as [(_ & _ & H & _) | [(_ & H) | (_ & -> & Hn & Hrow)]].
  - discriminate H.
  - discriminate H.
  - auto.
Qed.

(** X4.  [join_pool] answers "Joined" exactly when the email holds no seat in
    the pool, the pool exists, its ride time has not passed and it has a free
    seat. *)
Theorem join_pool_joined_iff
        (fromisoformat : string -> option Z) (now : Z) (st st' : db)
        (pool_id name email : string) :
  join_pool fromisoformat now st pool_id name email = Return (st', (true, "Joined"))
  <-> (~ is_member st pool_id email
       /\ (exists row, select_pool st pool_id = Some row
                       /\ ride_passed fromisoformat now (p_when_iso row) = false
                       /\ count_members st pool_id < p_seats row)
       /\ st' = mk_db (pools st) (members st ++ [mk_member pool_id name email])
                      (messages st)).
Proof.
  split.
  - apply join_pool_joined_inv.
  - intros (Hn & (row & Hrow & Ht & Hc) & ->).
    unfold join_pool. apply select_member_none in Hn. rewrite Hn, Hrow, Ht.
    apply Z.leb_gt in Hc. rewrite Hc.
    unfold insert_member. cbn [m_pool_id m_email]. rewrite Hn. reflexivity.
Qed.

(** X5.  Joining and then leaving gives back the store one started from. *)
Theorem join_then_leave_restores
        (fromisoformat : string -> option Z) (now : Z) (st st' : db)
        (pool_id name email : string) :
  join_pool fromisoformat now st pool_id name email = Return (st', (true, "Joined")) ->
  leave_pool st' pool_id email = st.
Proof.
  intros E. apply join_pool_joined_inv in E as (Hn & _ & ->).
  unfold leave_pool, delete_member. cbn [pools members messages].
  assert (member_matches pool_id email (mk_member pool_id name email) = true) as T
      by (apply member_matches_true; split; reflexivity).
  rewrite filter_app. cbn [filter]. rewrite T. cbn [negb].
  rewrite app_nil_r, filter_all; [apply db_eta|].
  intros m Hin. apply negb_true_iff.
  destruct (member_matches pool_id email m) eqn:F; auto.
  exfalso. apply Hn. apply member_matches_true in F. exists m. tauto.
Qed.

Lemma join_one_ride_alice :
  join_pool iso_parse ten_o_clock db_two_rides (p_id one_ride) "Alice" (u_email alice)
  = Return (mk_db (pools db_two_rides)
                  (members db_two_rides
                   ++ [mk_member (p_id one_ride) "Alice" (u_email alice)])
                  [],
            (true, "Joined")).
Proof. vm_compute. reflexivity. Qed.

Lemma join_then_leave_restores_witness :
  leave_pool (mk_db (pools db_two_rides)
                    (members db_two_rides
                     ++ [mk_member (p_id one_ride) "Alice" (u_email alice)])
                    [])
             (p_id one_ride) (u_email alice)
  = db_two_rides.
Proof.
  exact (join_then_leave_restores iso_parse ten_o_clock db_two_rides _
           (p_id one_ride) "Alice" (u_email alice) join_one_ride_alice).
Defined.

(** X6.  Once [delete_pool] has answered true, nothing of the pool is left
    but its chat: no pool row, no member row, a join is answered "Pool not
    found", and the messages of the store are all still there. *)
Theorem delete_pool_leaves_nothing_but_chat
        (fromisoformat : string -> option Z) (st st' : db)
        (pool_id requester_email : string) :
  delete_pool st pool_id requester_email = (st', true) ->
  select_pool st' pool_id = None
  /\ count_members st' pool_id = 0
  /\ (forall email, is_user_member st' pool_id email = false)
  /\ (forall now name email,
         join_pool fromisoformat now st' pool_id name email
         = Return (st', (false, "Pool not found")))
  /\ messages st' = messages st.
Proof.
  unfold delete_pool.
  destruct (select_pool st pool_id) as [row|]; [|discriminate].
  destruct (negb (p_host_email row =? requester_email)%string); [discriminate|].
  intros E. injection E as <-.
  assert (select_pool (delete_pool_row (delete_members st pool_id) pool_id) pool_id
          = None) as P.
  { apply select_pool_none. cbn [delete_pool_row delete_members pools].
    intros Hin. apply in_map_iff in Hin as [p [Hid Hin]].
    apply filter_In in Hin as [_ Hne].
    apply negb_true_iff, String.eqb_neq in Hne. contradiction. }
  assert (forall email,
             select_member (delete_pool_row (delete_members st pool_id) pool_id)
                           pool_id email = None) as M.
  { intros email. apply select_member_none. intros [m (Hin & Hid & _)].
    cbn [delete_pool_row delete_members members] in Hin.
    apply filter_In in Hin as [_ Hne].
    apply negb_true_iff, String.eqb_neq in Hne. contradiction. }
  split; [exact P|]. split; [|split; [|split]].
  - unfold count_members, select_members.
    cbn [delete_pool_row delete_members members].
    rewrite filter_filter, filter_none; [reflexivity|].
    intros m _. destruct (m_pool_id m =? pool_id)%string; reflexivity.
  - intros email. unfold is_user_member. now rewrite M.
  - intros now name email. unfold join_pool. now rewrite M, P.
  - reflexivity.
Qed.

Lemma delete_pool_leaves_nothing_but_chat_witness :
  select_pool (mk_db [one_ride] [mk_member (p_id one_ride) "Bob" (u_email bob)] [])
              (p_id noon_ride) = None.
Proof.
  assert (delete_pool db_two_rides (p_id noon_ride) (u_email alice)
          = (mk_db [one_ride] [mk_member (p_id one_ride) "Bob" (u_email bob)] [],
             true)) as E by reflexivity.
  exact (proj1 (delete_pool_leaves_nothing_but_chat iso_parse db_two_rides _
                  (p_id noon_ride) (u_email alice) E)).
Defined.

(** ** Creating a pool, and what follows *)

Lemma truthy_not_blank s : truthy (strip s) = true <-> ~ blank s.
Proof.
  unfold truthy, blank. rewrite negb_true_iff. apply String.eqb_neq.
Qed.

Lemma truthy_blank s : truthy (strip s) = false <-> blank s.
Proof.
  unfold truthy, blank. rewrite negb_false_iff. apply String.eqb_eq.
Qed.

(** The row that [create_pool_ui] of poolpreset.py hands to [add_pool]. *)
Lemma create_preset_inv fromisoformat isoformat now st usr dest_name when_dt
      mode pickup seats notes st' msg :
  PoolPreset.create_pool_ui fromisoformat isoformat now st usr dest_name when_dt
                            mode pickup seats notes
  = Return (st', st_success msg) ->
  now <= when_dt /\ ~ blank pickup
  /\ can_host_create fromisoformat now st (u_email usr) = true
  /\ add_pool st (mk_pool ("pool_" ++ str_of_int (epoch_millis now))
                          (PoolPreset.slug dest_name) dest_name 0%Q 0%Q
                          (isoformat when_dt) seats mode (strip notes)
                          (u_name usr) (u_email usr) (isoformat now)
                          (strip pickup))
     = Return st'.
Proof.
  unfold PoolPreset.create_pool_ui, now_iso.
  destruct (when_dt <? now) eqn:T; [discriminate|].
  destruct (truthy (strip pickup)) eqn:P; [|discriminate]. cbn [negb].
  destruct (can_host_create fromisoformat now st (u_email usr)); [|discriminate].
  cbn [negb]. destruct (add_pool st _) as [s|e] eqn:A; [|discriminate].
  cbn [bind]. intros E. injection E as <- _.
  apply Z.ltb_ge in T. apply truthy_not_blank in P. auto.
Qed.

(** The row that [create_pool_ui] of pool.py hands to [add_pool]. *)
Lemma create_pool_inv fromisoformat isoformat now st usr dest when_dt
      mode pickup seats notes st' msg :
  Pool.create_pool_ui fromisoformat isoformat now st usr dest when_dt
                      mode pickup seats notes
  = Return (st', st_success msg) ->
  exists d destination_id,
    dest = Some d /\ now <= when_dt
    /\ (Pool.looks_like_airport d = true -> ~ blank pickup)
    /\ can_host_create fromisoformat now st (u_email usr) = true
    /\ add_pool st (mk_pool ("pool_" ++ str_of_int (epoch_millis now))
                            destination_id (Pool.d_name d) (Pool.d_lat d)
                            (Pool.d_lng d) (isoformat when_dt) seats mode
                            (strip notes) (u_name usr) (u_email usr)
                            (isoformat now) (strip pickup))
       = Return st'.
Proof.
  unfold Pool.create_pool_ui, now_iso.
  destruct dest as [d|]; [|discriminate].
  destruct (when_dt <? now) eqn:T; [discriminate|].
  destruct (Pool.looks_like_airport d && negb (truthy (strip pickup))) eqn:P;
    [discriminate|].
  destruct (can_host_create fromisoformat now st (u_email usr)); [|discriminate].
  cbn [negb]. destruct (add_pool st _) as [s|e] eqn:A; [|discriminate].
  cbn [bind]. intros E. injection E as <- _.
  apply Z.ltb_ge in T. eexists d, _. repeat split; eauto.
  intros L. rewrite L in P. cbn [andb] in P.
  apply negb_false_iff, truthy_not_blank in P. exact P.
Qed.

(** After a creation by [email] at [now], the guard refuses [email] for the
    next fifteen minutes. *)
Lemma guard_closed_after_add fromisoformat st pool st' now now' :
  add_pool st pool = Return st' ->
  fromisoformat (p_created_at pool) = Some now ->
  now' <= now + timedelta_minutes COOLDOWN_MINUTES ->
  can_host_create fromisoformat now' st' (p_host_email pool) = false.
Proof.
  intros A P L. apply can_host_create_false. exists pool, now.
  split; [|split; [split; auto | lia]].
  rewrite (add_pool_pools _ _ _ A). apply in_app_iff. right. now left.
Qed.

(** X7.  The id of a new pool is made of the millisecond of the click and of
    nothing else.  When the store already has a pool created in that
    millisecond, a request that passes every check is not answered at all:
    the INSERT fails on the primary key and the exception leaves the
    handler, in both applications. *)
Theorem create_pool_same_millisecond_raises
        (fromisoformat : string -> option Z) (isoformat : Z -> string)
        (now : Z) (st : db) (usr : user) (when_dt : Z)
        (mode pickup : string) (seats : Z) (notes : string) :
  In ("pool_" ++ str_of_int (epoch_millis now)) (map p_id (pools st)) ->
  now <= when_dt ->
  ~ blank pickup ->
  can_host_create fromisoformat now st (u_email usr) = true ->
  (forall dest_name,
      PoolPreset.create_pool_ui fromisoformat isoformat now st usr dest_name
                                when_dt mode pickup seats notes
      = Raise IntegrityError)
  /\ (forall dest,
         Pool.create_pool_ui fromisoformat isoformat now st usr (Some dest)
                             when_dt mode pickup seats notes
         = Raise IntegrityError).
Proof.
  intros Hid Ht Hp Hg.
  apply Z.ltb_ge in Ht. apply truthy_not_blank in Hp.
  assert (forall p, p_id p = "pool_" ++ str_of_int (epoch_millis now) ->
                    add_pool st p = Raise IntegrityError) as A.
  { intros p E. unfold add_pool, insert_pool.
    destruct (select_pool st (p_id p)) eqn:S; [reflexivity|].
    apply select_pool_none in S. rewrite E in S. contradiction. }
  split.
  - intros dest_name. unfold PoolPreset.create_pool_ui.
    rewrite Ht, Hp, Hg. cbn [negb]. rewrite A; reflexivity.
  - intros dest. unfold Pool.create_pool_ui.
    rewrite Ht, Hp, Hg. cbn [negb]. rewrite andb_false_r. rewrite A; reflexivity.
Qed.

Lemma create_pool_same_millisecond_raises_witness :
  PoolPreset.create_pool_ui iso_parse iso_format ten_o_clock db_noon bob "JBS"
                            (ten_o_clock + one_hour) "Cab" "Mess 1" 3 ""
  = Raise IntegrityError.
Proof.
  assert (In ("pool_" ++ str_of_int (epoch_millis ten_o_clock))
             (map p_id (pools db_noon))) as H1 by (left; reflexivity).
  assert (ten_o_clock <= ten_o_clock + one_hour) as H2 by (vm_compute; discriminate).
  assert (~ blank "Mess 1") as H3 by (vm_compute; discriminate).
  assert (can_host_create iso_parse ten_o_clock db_noon (u_email bob) = true) as H4
      by reflexivity.
  exact (proj1 (create_pool_same_millisecond_raises iso_parse iso_format ten_o_clock
                  db_noon bob (ten_o_clock + one_hour) "Cab" "Mess 1" 3 ""
                  H1 H2 H3 H4) "JBS").
Defined.

(** A guard that lets the host through lets the host through at every
    later instant too, on the same rows. *)
Lemma can_host_create_later fromisoformat now now' st email :
  can_host_create fromisoformat now st email = true ->
  now <= now' ->
  can_host_create fromisoformat now' st email = true.
Proof.
  intros G L. apply can_host_create_true. intros p t Hin Hc.
  pose proof (proj1 (can_host_create_true fromisoformat now st email) G p t Hin Hc).
  lia.
Qed.

(** The guard reads the table of the pools and nothing else. *)
Lemma can_host_create_pools fromisoformat now st1 st2 email :
  pools st1 = pools st2 ->
  can_host_create fromisoformat now st1 email
  = can_host_create fromisoformat now st2 email.
Proof.
  intros E. unfold can_host_create, select_created_at. now rewrite E.
Qed.

Lemma find_app_none {A : Type} (f : A -> bool) (l1 l2 : list A) :
  find f l1 = None -> find f (l1 ++ l2)%list = find f l2.
Proof.
  induction l1 as [|a l1 IH]; cbn [find app]; [reflexivity|].
  destruct (f a); [discriminate | exact IH].
Qed.

(** Deleting the pool that was added last gives back the pools there were. *)
Lemma delete_added_pool st pool st' :
  add_pool st pool = Return st' ->
  delete_pool st' (p_id pool) (p_host_email pool)
  = (delete_pool_row (delete_members st' (p_id pool)) (p_id pool), true)
  /\ pools (delete_pool_row (delete_members st' (p_id pool)) (p_id pool)) = pools st.
Proof.
  intros A. pose proof (add_pool_pools _ _ _ A) as P.
  apply add_pool_inv in A as [Fresh _].
  pose proof (proj1 (select_pool_none _ _) Fresh) as NotIn.
  assert (filter (fun p => negb (p_id p =? p_id pool)%string) (pools st) = pools st) as F.
  { apply filter_all. intros p Hp. apply negb_true_iff, String.eqb_neq.
    intros E. apply NotIn. rewrite <- E. now apply in_map. }
  split.
  - unfold delete_pool, select_pool. rewrite P, (find_app_none _ _ _ Fresh).
    cbn [find]. rewrite String.eqb_refl. now rewrite String.eqb_refl.
  - cbn [pools delete_pool_row delete_members]. rewrite P, filter_app, F.
    cbn [filter]. rewrite String.eqb_refl. cbn [negb]. apply app_nil_r.
Qed.

(** X8.  A creation that succeeded leaves a pool row of the user, stamped
    with the instant of the click.  For as long as that row is in the table,
    whatever else the store holds by then, every further request by the same
    user up to fifteen minutes after the click is refused and writes nothing;
    when it has a time that is not past and a pickup point, the refusal is
    the cooldown message.  The guard reads the rows that are left and no
    others: when the host deletes the new pool, the table of the pools is the
    one from before the creation, and the guard lets the user create again at
    once, at the instant of the click and at every later one.  (The creation
    stamp is read back as it was written.) *)
Theorem create_pool_then_cooldown
        (fromisoformat : string -> option Z) (isoformat : Z -> string)
        (now : Z) (st st' : db) (usr : user) (msg : string) :
  fromisoformat (isoformat now) = Some now ->
  ((exists dest_name when_dt mode pickup seats notes,
       PoolPreset.create_pool_ui fromisoformat isoformat now st usr dest_name
                                 when_dt mode pickup seats notes
       = Return (st', st_success msg))
   \/ (exists dest when_dt mode pickup seats notes,
          Pool.create_pool_ui fromisoformat isoformat now st usr dest
                              when_dt mode pickup seats notes
          = Return (st', st_success msg))) ->
  let pool_id := "pool_" ++ str_of_int (epoch_millis now) in
  (exists row,
      In row (pools st') /\ p_id row = pool_id
      /\ p_host_email row = u_email usr /\ p_created_at row = isoformat now)
  /\ (forall st2 row now' when_dt' mode' pickup' seats' notes',
         In row (pools st2) ->
         p_host_email row = u_email usr ->
         p_created_at row = isoformat now ->
         now' <= now + timedelta_minutes COOLDOWN_MINUTES ->
         (forall dest_name',
             exists e,
               PoolPreset.create_pool_ui fromisoformat isoformat now' st2 usr
                                         dest_name' when_dt' mode' pickup' seats'
                                         notes'
               = Return (st2, st_error e)
               /\ (now' <= when_dt' -> ~ blank pickup' -> e = cooldown_message))
         /\ (forall dest',
                exists e,
                  Pool.create_pool_ui fromisoformat isoformat now' st2 usr dest'
                                      when_dt' mode' pickup' seats' notes'
                  = Return (st2, st_error e)
                  /\ (dest' <> None -> now' <= when_dt' -> ~ blank pickup' ->
                      e = cooldown_message)))
  /\ (exists st2,
         delete_pool st' pool_id (u_email usr) = (st2, true)
         /\ pools st2 = pools st
         /\ forall now', now <= now' ->
                         can_host_create fromisoformat now' st2 (u_email usr) = true).
Proof.
  intros RT Created pool_id.
  assert (exists pool,
             add_pool st pool = Return st'
             /\ p_id pool = pool_id /\ p_host_email pool = u_email usr
             /\ p_created_at pool = isoformat now
             /\ can_host_create fromisoformat now st (u_email usr) = true)
    as (pool & A & Hid & Hhost & Hstamp & G0).
  { destruct Created as [(d & w & m & p & s & n & E) | (d & w & m & p & s & n & E)].
    - apply create_preset_inv in E as (_ & _ & G0 & A).
      eexists. split; [exact A|]. cbn [p_id p_host_email p_created_at]. auto.
    - apply create_pool_inv in E as (d0 & i & _ & _ & _ & G0 & A).
      eexists. split; [exact A|]. cbn [p_id p_host_email p_created_at]. auto. }
  split; [|split].
  - exists pool. split; [|auto].
    rewrite (add_pool_pools _ _ _ A). apply in_app_iff. right. now left.
  - intros st2 row now' when_dt' mode' pickup' seats' notes' Hin Rhost Rstamp L.
    assert (can_host_create fromisoformat now' st2 (u_email usr) = false) as G.
    { apply can_host_create_false. exists row, now.
      split; [exact Hin|]. split; [split; [exact Rhost | now rewrite Rstamp]|].
      lia. }
    split.
    + intros dest_name'. unfold PoolPreset.create_pool_ui. rewrite G. cbn [negb].
      destruct (when_dt' <? now') eqn:T.
      { eexists. split; [reflexivity|]. apply Z.ltb_lt in T. intros. lia. }
      destruct (truthy (strip pickup')) eqn:P; cbn [negb].
      * eexists. split; [reflexivity | auto].
      * eexists. split; [reflexivity|]. apply truthy_blank in P. intros. contradiction.
    + intros dest'. unfold Pool.create_pool_ui. rewrite G. cbn [negb].
      destruct dest' as [d|].
      2:{ eexists. split; [reflexivity|]. intros H. contradiction. }
      destruct (when_dt' <? now') eqn:T.
      { eexists. split; [reflexivity|]. apply Z.ltb_lt in T. intros. lia. }
      destruct (truthy (strip pickup')) eqn:P; cbn [negb].
      * rewrite andb_false_r. eexists. split; [reflexivity | auto].
      * destruct (Pool.looks_like_airport d); cbn [andb].
        -- eexists. split; [reflexivity|]. apply truthy_blank in P. intros.
           contradiction.
        -- eexists. split; [reflexivity | auto].
  - destruct (delete_added_pool _ _ _ A) as [D P].
    rewrite Hid, Hhost in D. rewrite Hid in P.
    eexists. split; [exact D|]. split; [exact P|].
    intros now' L.
    rewrite (can_host_create_pools fromisoformat now' _ st (u_email usr) P).
    now apply (can_host_create_later fromisoformat now now').
Qed.

Lemma create_pool_then_cooldown_witness :
  PoolPreset.create_pool_ui iso_parse iso_format (ten_o_clock + 15 * one_minute)
                            db_two_rides alice "Udupi" (ten_o_clock + 5 * one_hour)
                            "Auto" "Mess 2" 2 ""
  = Return (db_two_rides, st_error cooldown_message)
  /\ exists st2,
       delete_pool db_noon (p_id noon_ride) (u_email alice) = (st2, true)
       /\ pools st2 = []
       /\ can_host_create iso_parse ten_o_clock st2 (u_email alice) = true.
Proof.
  assert (iso_parse (iso_format ten_o_clock) = Some ten_o_clock) as RT
      by (vm_compute; reflexivity).
  assert (PoolPreset.create_pool_ui iso_parse iso_format ten_o_clock empty_db alice
            "JBS" (ten_o_clock + 2 * one_hour) "Cab" "BPHC Main Gate" 1 ""
          = Return (db_noon, st_success "Pool created!")) as E
      by (vm_compute; reflexivity).
  assert (ten_o_clock + 15 * one_minute
          <= ten_o_clock + timedelta_minutes COOLDOWN_MINUTES) as L
      by (vm_compute; discriminate).
  assert (In noon_ride (pools db_two_rides)) as Hin by (left; reflexivity).
  assert (p_host_email noon_ride = u_email alice) as Hhost by reflexivity.
  assert (p_created_at noon_ride = iso_format ten_o_clock) as Hstamp by reflexivity.
  destruct (create_pool_then_cooldown iso_parse iso_format ten_o_clock empty_db
              db_noon alice "Pool created!" RT
              (or_introl (ex_intro _ "JBS" (ex_intro _ _ (ex_intro _ "Cab"
                 (ex_intro _ "BPHC Main Gate" (ex_intro _ 1 (ex_intro _ "" E))))))))
    as (_ & Closed & st2 & D & P & Open).
  split.
  - destruct (Closed db_two_rides noon_ride (ten_o_clock + 15 * one_minute)
                (ten_o_clock + 5 * one_hour) "Auto" "Mess 2" 2 ""
                Hin Hhost Hstamp L) as [Preset _].
    destruct (Preset "Udupi") as (e & Eq & Msg).
    rewrite Eq. rewrite Msg.
    + reflexivity.
    + vm_compute. discriminate.
    + vm_compute. discriminate.
  - exists st2. split; [exact D|]. split; [exact P|].
    apply Open. apply Z.le_refl.
Defined.

Lemma is_future_after fromisoformat now p t :
  fromisoformat (p_when_iso p) = Some t -> now <= t ->
  is_future fromisoformat now p = true.
Proof. unfold is_future. intros -> H. now apply Z.leb_le. Qed.

(** X9.  A pool that was just created is in the list at once: its card shows
    the host as the only member, with the [Leave] and the [Delete] button
    for the host.  (The departure time is read back as it was written.) *)
Theorem created_pool_is_listed
        (fromisoformat : string -> option Z) (isoformat : Z -> string)
        (now : Z) (st st' : db) (usr : user) (when_dt : Z)
        (pickup : string) (seats : Z) (msg : string) :
  reachable fromisoformat isoformat st ->
  fromisoformat (isoformat when_dt) = Some when_dt ->
  ((exists dest_name mode notes,
       PoolPreset.create_pool_ui fromisoformat isoformat now st usr dest_name
                                 when_dt mode pickup seats notes
       = Return (st', st_success msg))
   \/ (exists dest mode notes,
          Pool.create_pool_ui fromisoformat isoformat now st usr dest
                              when_dt mode pickup seats notes
          = Return (st', st_success msg))) ->
  exists row,
    let card := mk_view row [(u_name usr, u_email usr)] None in
    In card (list_future_pools fromisoformat now st')
    /\ p_id row = "pool_" ++ str_of_int (epoch_millis now)
    /\ p_host_email row = u_email usr
    /\ p_seats row = seats
    /\ p_pickup row = strip pickup
    /\ card_button_pool st' usr card = LeaveButton
    /\ card_button_preset st' usr card = LeaveButton
    /\ delete_button usr card = true.
Proof.
  intros R RT Created. pose proof (reachable_consistent _ _ _ R) as C.
  assert (exists row,
             add_pool st row = Return st' /\ now <= when_dt
             /\ p_id row = "pool_" ++ str_of_int (epoch_millis now)
             /\ p_host_email row = u_email usr /\ p_host_name row = u_name usr
             /\ p_seats row = seats /\ p_pickup row = strip pickup
             /\ p_when_iso row = isoformat when_dt) as (row & A & T & Hrow).
  { destruct Created as [(d & m & n & E) | (d & m & n & E)].
    - apply create_preset_inv in E as (T & _ & _ & A).
      eexists. split; [exact A|]. repeat split; auto.
    - apply create_pool_inv in E as (d0 & i & _ & T & _ & _ & A).
      eexists. split; [exact A|]. repeat split; auto. }
  destruct Hrow as (Hid & Hhost & Hname & Hseats & Hpick & Hwhen).
  pose proof (add_pool_inv _ _ _ A) as [Fresh _].
  pose proof (add_pool_result _ _ _ C A) as ->.
  assert (select_members
            (mk_db (pools st ++ [row])
                   (members st ++ [mk_member (p_id row) (p_host_name row)
                                             (p_host_email row)])
                   (messages st)) (p_id row)
          = [mk_member (p_id row) (p_host_name row) (p_host_email row)]) as S.
  { unfold select_members. cbn [members]. rewrite filter_app.
    rewrite (filter_none _ _ (no_member_of_fresh_pool st (p_id row) C Fresh)).
    cbn [filter m_pool_id app]. now rewrite String.eqb_refl. }
  exists row. cbv zeta. split; [|split; [exact Hid|split; [exact Hhost|]]].
  - unfold list_future_pools. apply in_map_iff. exists row. split.
    + rewrite S. cbn [map m_name m_email]. now rewrite Hname, Hhost.
    + cbn [pools]. apply filter_In. split.
      * apply in_app_iff. right. now left.
      * apply (is_future_after fromisoformat now row when_dt); [|exact T].
        now rewrite Hwhen.
  - split; [exact Hseats|]. split; [exact Hpick|]. split; [|split].
    + unfold card_button_pool. cbn [v_members existsb snd].
      now rewrite String.eqb_refl.
    + unfold card_button_preset, is_user_member, select_member, v_id.
      cbn [v_row members].
      destruct (find _ _) eqn:F; [reflexivity|].
      exfalso.
      assert (In (mk_member (p_id row) (p_host_name row) (p_host_email row))
                 (members st ++ [mk_member (p_id row) (p_host_name row)
                                           (p_host_email row)])) as Hin
          by (apply in_app_iff; right; now left).
      apply (find_none _ _ F) in Hin.
      unfold member_matches in Hin. cbn [m_pool_id m_email] in Hin.
      rewrite Hhost, !String.eqb_refl in Hin. discriminate.
    + unfold delete_button. cbn [v_row]. rewrite Hhost. apply String.eqb_refl.
Qed.

Lemma created_pool_is_listed_witness :
  exists row,
    In (mk_view row [("Alice", "alice@hyderabad.bits-pilani.ac.in")] None)
       (list_future_pools iso_parse ten_o_clock db_noon)
    /\ p_id row = "pool_1893492000000".
Proof.
  assert (iso_parse (iso_format (ten_o_clock + 2 * one_hour))
          = Some (ten_o_clock + 2 * one_hour)) as RT by (vm_compute; reflexivity).
  assert (PoolPreset.create_pool_ui iso_parse iso_format ten_o_clock empty_db alice
            "JBS" (ten_o_clock + 2 * one_hour) "Cab" "BPHC Main Gate" 1 ""
          = Return (db_noon, st_success "Pool created!")) as E
      by (vm_compute; reflexivity).
  destruct (created_pool_is_listed iso_parse iso_format ten_o_clock empty_db
              db_noon alice (ten_o_clock + 2 * one_hour) "BPHC Main Gate" 1
              "Pool created!" (reachable_init _ _) RT
              (or_introl (ex_intro _ "JBS" (ex_intro _ "Cab" (ex_intro _ "" E)))))
    as (row & Hin & Hid & _).
  exists row. split; [exact Hin | exact Hid].
Defined.

(** ** The pickup point *)

Lemma lower_app a b : lower (a ++ b) = lower a ++ lower b.
Proof. induction a as [|c a IH]; simpl; congruence. Qed.

Lemma prefix_app w b : String.prefix w (w ++ b) = true.
Proof.
  induction w as [|c w IH]; simpl.
  - now destruct b.
  - destruct (ascii_dec c c) as [_ | N]; [exact IH | now elim N].
Qed.

Lemma contains_app w a b : contains w (a ++ w ++ b) = true.
Proof.
  induction a as [|c a IH].
  - cbn [append]. destruct (w ++ b) eqn:E; cbn [contains];
      rewrite <- E, prefix_app; reflexivity.
  - cbn [append contains]. rewrite IH. apply orb_true_r.
Qed.

(** X10.  pool.py asks for a pickup point when the name or the address of the
    destination has the word "airport" in it, in any mix of upper and lower
    case: with a blank pickup such a request is refused and nothing is
    written.  poolpreset.py asks for a pickup point whatever the
    destination. *)
Theorem blank_pickup_is_refused
        (fromisoformat : string -> option Z) (isoformat : Z -> string)
        (now : Z) (st : db) (usr : user) (when_dt : Z)
        (mode pickup : string) (seats : Z) (notes : string) :
  now <= when_dt ->
  blank pickup ->
  (forall dest a w b,
      lower w = "airport" ->
      Pool.d_name dest = a ++ w ++ b \/ Pool.d_addr dest = a ++ w ++ b ->
      Pool.create_pool_ui fromisoformat isoformat now st usr (Some dest)
                          when_dt mode pickup seats notes
      = Return (st, st_error "For airport rides, please enter a pickup point."))
  /\ (forall dest_name,
         PoolPreset.create_pool_ui fromisoformat isoformat now st usr dest_name
                                   when_dt mode pickup seats notes
         = Return (st, st_error "Please select or enter a pickup point.")).
Proof.
  intros T B. apply Z.ltb_ge in T. apply truthy_blank in B. split.
  - intros dest a w b W D. unfold Pool.create_pool_ui. rewrite T, B. cbn [negb].
    assert (Pool.looks_like_airport dest = true) as ->; [|reflexivity].
    unfold Pool.looks_like_airport. apply orb_true_iff.
    destruct D as [-> | ->]; [left | right];
      rewrite !lower_app, W; apply contains_app.
  - intros dest_name. unfold PoolPreset.create_pool_ui. now rewrite T, B.
Qed.

Lemma blank_pickup_is_refused_witness :
  Pool.create_pool_ui iso_parse iso_format ten_o_clock empty_db alice
                      (Some (Pool.mk_dest None "RGIA AirPort T1" 0%Q 0%Q "Shamshabad"))
                      (ten_o_clock + one_hour) "Cab" "   " 2 ""
  = Return (empty_db, st_error "For airport rides, please enter a pickup point.").
Proof.
  assert (ten_o_clock <= ten_o_clock + one_hour) as T by (vm_compute; discriminate).
  assert (blank "   ") as B by reflexivity.
  apply (proj1 (blank_pickup_is_refused iso_parse iso_format ten_o_clock empty_db
                  alice (ten_o_clock + one_hour) "Cab" "   " 2 "" T B)
               _ "RGIA " "AirPort" " T1").
  - reflexivity.
  - left. reflexivity.
Defined.

(** ** What is listed, and what the cleanup leaves *)

Lemma is_future_not_passed fromisoformat now p :
  is_future fromisoformat now p = true ->
  ride_passed fromisoformat now (p_when_iso p) = false.
Proof.
  unfold is_future, ride_passed.
  destruct (fromisoformat (p_when_iso p)) as [t|]; [|discriminate].
  intros H. apply Z.leb_le in H. apply Z.ltb_ge. exact H.
Qed.

Lemma listed_ids fromisoformat now st pid :
  In pid (map v_id (list_future_pools fromisoformat now st))
  <-> exists p, In p (pools st) /\ p_id p = pid
                /\ is_future fromisoformat now p = true.
Proof.
  unfold list_future_pools. rewrite map_map. cbn [v_id v_row].
  rewrite in_map_iff. split.
  - intros [p [E Hin]]. apply filter_In in Hin as [Hin F]. eauto.
  - intros [p (Hin & E & F)]. exists p. split; auto. apply filter_In. auto.
Qed.

(** The member rows of a pool that has not departed survive the cleanup. *)
Lemma cleanup_keeps_live_members fromisoformat now st p :
  pool_ids_unique st -> In p (pools st) ->
  ride_passed fromisoformat now (p_when_iso p) = false ->
  select_members (cleanup_expired_pools fromisoformat now st) (p_id p)
  = select_members st (p_id p).
Proof.
  intros U Hp T. unfold select_members. rewrite (cleanup_result _ _ _ U).
  cbn [members]. rewrite filter_filter. apply filter_ext_in'. intros m Hm.
  destruct (String.eqb_spec (m_pool_id m) (p_id p)) as [E | _];
    [|apply andb_false_r].
  rewrite andb_true_r. apply negb_true_iff.
  destruct (reaped _ _ _ _) eqn:R; auto.
  apply reaped_iff in R as [q (Hq & Hid & Tq)].
  rewrite (same_id_same_row st q p U Hq Hp) in Tq by congruence.
  apply ride_passed_true in Tq. congruence.
Qed.

(** X11.  The cleanup does not change what is listed: at one instant,
    [list_future_pools] returns the same cards, members included, before and
    after [cleanup_expired_pools].  Every pool that the cleanup leaves is
    either listed or has a departure text that cannot be read. *)
Theorem cleanup_keeps_the_list
        (fromisoformat : string -> option Z) (now : Z) (st : db) :
  pool_ids_unique st ->
  list_future_pools fromisoformat now (cleanup_expired_pools fromisoformat now st)
  = list_future_pools fromisoformat now st
  /\ (forall p,
         In p (pools (cleanup_expired_pools fromisoformat now st)) ->
         In (p_id p) (map v_id (list_future_pools fromisoformat now st))
         \/ fromisoformat (p_when_iso p) = None).
Proof.
  intros U. split.
  - unfold list_future_pools at 1 2.
    assert (filter (is_future fromisoformat now)
                   (pools (cleanup_expired_pools fromisoformat now st))
            = filter (is_future fromisoformat now) (pools st)) as ->.
    { rewrite (cleanup_result _ _ _ U). cbn [pools]. rewrite filter_filter.
      apply filter_ext_in'. intros p _.
      destruct (is_future fromisoformat now p) eqn:F; [|apply andb_false_r].
      now rewrite (is_future_not_passed _ _ _ F). }
    apply map_ext_in. intros p Hp. apply filter_In in Hp as [Hp F].
    now rewrite (cleanup_keeps_live_members _ _ _ _ U Hp
                   (is_future_not_passed _ _ _ F)).
  - intros p Hp. rewrite (cleanup_result _ _ _ U) in Hp. cbn [pools] in Hp.
    apply filter_In in Hp as [Hp T]. apply negb_true_iff in T.
    destruct (fromisoformat (p_when_iso p)) as [t|] eqn:E; [left | now right].
    apply listed_ids. exists p. repeat split; auto.
    unfold is_future. rewrite E. unfold ride_passed in T. rewrite E in T.
    apply Z.ltb_ge in T. now apply Z.leb_le.
Qed.

Lemma cleanup_keeps_the_list_witness :
  list_future_pools iso_parse (ten_o_clock + 150 * one_minute)
    (cleanup_expired_pools iso_parse (ten_o_clock + 150 * one_minute) db_two_rides)
  = list_future_pools iso_parse (ten_o_clock + 150 * one_minute) db_two_rides.
Proof.
  exact (proj1 (cleanup_keeps_the_list iso_parse (ten_o_clock + 150 * one_minute)
                  db_two_rides pool_ids_unique_db_two_rides)).
Defined.

(** X12.  A pool whose departure text cannot be read never expires and is
    never shown: at every instant the cleanup keeps it with its member rows
    and the list leaves it out; and [join_pool] never answers that its ride
    time has passed. *)
Theorem unreadable_departure_never_expires
        (fromisoformat : string -> option Z) (st : db) (p : pool_row) :
  pool_ids_unique st ->
  In p (pools st) ->
  fromisoformat (p_when_iso p) = None ->
  forall now,
    In p (pools (cleanup_expired_pools fromisoformat now st))
    /\ select_members (cleanup_expired_pools fromisoformat now st) (p_id p)
       = select_members st (p_id p)
    /\ ~ In (p_id p) (map v_id (list_future_pools fromisoformat now st))
    /\ (forall name email st' r,
           join_pool fromisoformat now st (p_id p) name email = Return (st', r) ->
           snd r <> "Ride time has passed").
Proof.
  intros U Hp E now.
  assert (ride_passed fromisoformat now (p_when_iso p) = false) as T
      by (unfold ride_passed; now rewrite E).
  split; [|split; [|split]].
  - rewrite (cleanup_result _ _ _ U). cbn [pools]. apply filter_In.
    split; auto. now rewrite T.
  - now apply cleanup_keeps_live_members.
  - intros Hin. apply listed_ids in Hin as [q (Hq & Hid & F)].
    rewrite (same_id_same_row st q p U Hq Hp Hid) in F.
    unfold is_future in F. rewrite E in F. discriminate.
  - intros name email st' r. unfold join_pool.
    destruct (select_member st (p_id p) email).
    { intros J. injection J as _ <-. discriminate. }
    rewrite (select_pool_unique st p U Hp), T.
    destruct (p_seats p <=? count_members st (p_id p)).
    { intros J. injection J as _ <-. discriminate. }
    destruct (insert_member _ _); cbn [bind]; [|discriminate].
    intros J. injection J as _ <-. discriminate.
Qed.

Lemma unreadable_departure_never_expires_witness :
  let p := mk_pool "pool_7" "jbs" "JBS" 0%Q 0%Q "tomorrow" 2 "Cab" "" "Bob"
                   (u_email bob) "2030-01-01T10:00:00" "Mess 1" in
  In p (pools (cleanup_expired_pools iso_parse (ten_o_clock + 1000 * one_hour)
                                     (mk_db [p] [] []))).
Proof.
  intros p.
  assert (pool_ids_unique (mk_db [p] [] [])) as U.
  { unfold pool_ids_unique. simpl. constructor; [intros [] | constructor]. }
  exact (proj1 (unreadable_departure_never_expires iso_parse (mk_db [p] [] []) p U
                  (or_introl eq_refl) eq_refl (ten_o_clock + 1000 * one_hour))).
Defined.

(** X13.  In a store that the engine can reach there is no member row
    without its pool: for an id that no pool has, the member list is empty,
    the count is zero, nobody is a member, and [join_pool] answers "Pool not
    found". *)
Theorem no_members_without_pool
        (fromisoformat : string -> option Z) (isoformat : Z -> string)
        (st : db) (pool_id : string) :
  reachable fromisoformat isoformat st ->
  select_pool st pool_id = None ->
  get_member_list st pool_id = []
  /\ get_members_count st pool_id = 0
  /\ (forall email, is_user_member st pool_id email = false)
  /\ (forall now name email,
         join_pool fromisoformat now st pool_id name email
         = Return (st, (false, "Pool not found"))).
Proof.
  intros R N. pose proof (reachable_consistent _ _ _ R) as C.
  pose proof (no_member_of_fresh_pool st pool_id C N) as F.
  assert (select_members st pool_id = []) as S
      by (unfold select_members; now apply filter_none).
  assert (forall email, select_member st pool_id email = None) as M.
  { intros email. apply select_member_none. intros [m (Hin & Hid & _)].
    specialize (F m Hin). apply String.eqb_neq in F. contradiction. }
  split; [|split; [|split]].
  - unfold get_member_list. now rewrite S.
  - unfold get_members_count, count_members. now rewrite S.
  - intros email. unfold is_user_member. now rewrite M.
  - intros now name email. unfold join_pool. now rewrite M, N.
Qed.

Lemma no_members_without_pool_witness :
  get_member_list db_noon "pool_0" = []
  /\ get_members_count db_noon "pool_0" = 0.
Proof.
  destruct (no_members_without_pool iso_parse iso_format db_noon "pool_0"
              reachable_db_noon eq_refl) as (H1 & H2 & _).
  split; [exact H1 | exact H2].
Defined.

Lemma cleanup_messages fromisoformat now st :
  messages (cleanup_expired_pools fromisoformat now st) = messages st.
Proof. unfold cleanup_expired_pools. now rewrite cleanup_fold. Qed.

(** X14.  No function of the data layer deletes a chat message: one step of
    the engine leaves the [messages] table as it was or adds one row at its
    end.  The messages of a pool stay in the store when the pool is deleted
    or expires. *)
Theorem messages_are_never_deleted
        (fromisoformat : string -> option Z) (isoformat : Z -> string)
        (st st' : db) :
  step fromisoformat isoformat st st' ->
  exists added,
    messages st' = (messages st ++ added)%list /\ (List.length added <= 1)%nat.
Proof.
  intros S. destruct S as [st pool st' _ A | now st pid n e st' r J | st pid e
                           | st pid req | now st
                           | now st pid sn se c st' A].
  - exists []. split; [|simpl; lia]. rewrite app_nil_r.
    apply add_pool_inv in A as [_ ->].
    unfold insert_or_ignore_member. now destruct (select_member _ _ _).
  - exists []. split; [|simpl; lia]. rewrite app_nil_r.
    apply join_pool_cases in J as [[-> _] | [[-> _] | (_ & -> & _)]]; reflexivity.
  - exists []. split; [|simpl; lia]. now rewrite app_nil_r.
  - exists []. split; [|simpl; lia]. rewrite app_nil_r. unfold delete_pool.
    destruct (select_pool st pid) as [row|]; [|reflexivity].
    destruct (negb (p_host_email row =? req)%string); reflexivity.
  - exists []. split; [|simpl; lia]. rewrite app_nil_r. apply cleanup_messages.
  - unfold add_message, insert_message in A.
    destruct (existsb _ _); [discriminate|]. injection A as <-.
    eexists [_]. split; [reflexivity | simpl; lia].
Qed.

Lemma messages_are_never_deleted_witness :
  exists added,
    messages (fst (delete_pool (db_chat 3) (p_id noon_ride) (u_email alice)))
    = (messages (db_chat 3) ++ added)%list
    /\ (List.length added <= 1)%nat.
Proof.
  exact (messages_are_never_deleted iso_parse iso_format (db_chat 3) _
           (step_delete_pool iso_parse iso_format (db_chat 3) (p_id noon_ride)
                             (u_email alice))).
Defined.

(** ** The order of a list *)

Section SortFacts.
Context {A K : Type}.
Variable ltb : K -> K -> bool.
Variable key : A -> K.
Hypothesis ltb_asym : forall a b, ltb a b = true -> ltb b a = false.

Lemma insert_by_perm x l : Permutation (insert_by ltb key x l) (x :: l).
Proof.
  induction l as [|y l IH]; simpl; [reflexivity|].
  destruct (ltb (key y) (key x)); [|reflexivity].
  rewrite IH. apply perm_swap.
Qed.

Lemma sort_by_perm l : Permutation (sort_by ltb key l) l.
Proof.
  induction l as [|x l IH]; simpl; [reflexivity|].
  rewrite insert_by_perm. now apply perm_skip.
Qed.

Lemma insert_by_hd x l a :
  HdRel (fun a b => ltb (key b) (key a) = false) a l ->
  ltb (key x) (key a) = false ->
  HdRel (fun a b => ltb (key b) (key a) = false) a (insert_by ltb key x l).
Proof.
  intros H Hx. destruct l as [|y l]; simpl.
  - now constructor.
  - inversion H; subst. destruct (ltb (key y) (key x)); now constructor.
Qed.

Lemma insert_by_in_order x l :
  in_order ltb key l -> in_order ltb key (insert_by ltb key x l).
Proof.
  unfold in_order. induction l as [|y l IH]; simpl; intros S.
  - repeat constructor.
  - inversion S as [|? ? S' H]; subst.
    destruct (ltb (key y) (key x)) eqn:E.
    + constructor; [now apply IH|].
      apply insert_by_hd; [exact H | now apply ltb_asym].
    + constructor; [exact S | now constructor].
Qed.

Lemma sort_by_in_order l : in_order ltb key (sort_by ltb key l).
Proof.
  induction l as [|x l IH]; simpl.
  - constructor.
  - now apply insert_by_in_order.
Qed.

Lemma in_order_firstn n l : in_order ltb key l -> in_order ltb key (firstn n l).
Proof.
  unfold in_order. revert l. induction n as [|n IH]; intros l S; simpl.
  - constructor.
  - destruct l as [|x l]; [constructor|].
    inversion S as [|? ? S' H]; subst. constructor; [now apply IH|].
    destruct l as [|y l]; [destruct n; constructor|].
    destruct n; simpl; [constructor|]. inversion H; subst. now constructor.
Qed.

End SortFacts.

Lemma string_ltb_asym a b : String.ltb a b = true -> String.ltb b a = false.
Proof.
  unfold String.ltb. rewrite (String.compare_antisym b a).
  destruct (String.compare a b); simpl; congruence.
Qed.

Lemma sort_chronological_perm l : Permutation (sort_chronological l) l.
Proof. apply sort_by_perm. Qed.

Lemma sort_chronological_in_order l : chronological (sort_chronological l).
Proof. apply sort_by_in_order, string_ltb_asym. Qed.

(** ** The shared pool *)

Lemma focus_filter_perm (x : pool_view) l :
  NoDup (map v_id l) -> In x l ->
  Permutation (x :: filter (fun p => negb (v_id p =? v_id x)%string) l) l.
Proof.
  induction l as [|y l IH]; simpl; intros Hnd Hin; [contradiction|].
  inversion Hnd as [|? ? Hy Hl]; subst.
  destruct Hin as [-> | Hin].
  - rewrite String.eqb_refl. cbn [negb]. apply perm_skip.
    rewrite filter_all; [reflexivity|].
    intros p Hp. apply negb_true_iff, String.eqb_neq. intros E.
    apply Hy. rewrite <- E. now apply in_map.
  - destruct (String.eqb_spec (v_id y) (v_id x)) as [E | _]; cbn [negb].
    + exfalso. apply Hy. rewrite E. now apply in_map.
    + rewrite perm_swap. apply perm_skip. now apply IH.
Qed.

Lemma focus_to_top_perm focus l :
  NoDup (map v_id l) -> Permutation (focus_to_top focus l) l.
Proof.
  intros Hnd. unfold focus_to_top. destruct focus as [f|]; [|reflexivity].
  destruct (truthy f); [|reflexivity].
  destruct (find _ l) as [x|] eqn:F; [|reflexivity].
  apply find_some in F as [Hin _]. now apply focus_filter_perm.
Qed.

(** X15.  The block "bring it to top", taken by itself, does what its name
    says.  On a list whose ids are distinct it only reorders the cards; when
    the [pool] parameter of the link names a card of the list, that card
    comes first; when the parameter is missing, empty or names no card, the
    list is returned as it is. *)
Theorem focus_to_top_brings_to_top (focus : option string) (l : list pool_view) :
  NoDup (map v_id l) ->
  Permutation (focus_to_top focus l) l
  /\ (forall f, focus = Some f -> f <> "" -> In f (map v_id l) ->
                exists v rest, focus_to_top focus l = v :: rest /\ v_id v = f
                               /\ rest = filter (fun p => negb (v_id p =? f)%string) l)
  /\ (focus = None \/ focus = Some ""
      \/ (exists f, focus = Some f /\ ~ In f (map v_id l)) ->
      focus_to_top focus l = l).
Proof.
  intros Hnd. split; [now apply focus_to_top_perm|]. split.
  - intros f -> Hf Hin. unfold focus_to_top.
    assert (truthy f = true) as ->
        by (unfold truthy; now apply negb_true_iff, String.eqb_neq).
    destruct (find _ l) as [x|] eqn:F.
    + apply find_some in F as [_ E]. apply String.eqb_eq in E.
      exists x, (filter (fun p => negb (v_id p =? f)%string) l).
      rewrite E. auto.
    + exfalso. apply in_map_iff in Hin as [x [E Hx]].
      apply (find_none _ _ F) in Hx. apply String.eqb_neq in Hx. contradiction.
  - intros [-> | [-> | (f & -> & Hn)]]; try reflexivity.
    unfold focus_to_top. destruct (truthy f); [|reflexivity].
    destruct (find _ l) as [x|] eqn:F; [|reflexivity].
    exfalso. apply find_some in F as [Hx E]. apply String.eqb_eq in E.
    apply Hn. rewrite <- E. now apply in_map.
Qed.

Lemma focus_to_top_brings_to_top_witness :
  Permutation
    (focus_to_top (Some (p_id one_ride))
                  (list_future_pools iso_parse ten_o_clock db_two_rides))
    (list_future_pools iso_parse ten_o_clock db_two_rides).
Proof.
  assert (NoDup (map v_id (list_future_pools iso_parse ten_o_clock db_two_rides)))
    as Hnd.
  { vm_compute. constructor; [|constructor; [intros [] | constructor]].
    intros [H | []]. discriminate H. }
  exact (proj1 (focus_to_top_brings_to_top (Some (p_id one_ride)) _ Hnd)).
Defined.

(** ** The list that [pools_list_ui] renders *)

Lemma perm_filter {A : Type} (f : A -> bool) (l l' : list A) :
  Permutation l l' -> Permutation (filter f l) (filter f l').
Proof.
  induction 1 as [| x l l' _ IH | x y l | l l' l'' _ IH1 _ IH2]; simpl.
  - constructor.
  - destruct (f x); [now apply perm_skip | exact IH].
  - destruct (f x), (f y); try reflexivity. apply perm_swap.
  - now transitivity (filter f l').
Qed.

Lemma listed_ids_nodup fromisoformat now st :
  pool_ids_unique st ->
  NoDup (map v_id (list_future_pools fromisoformat now st)).
Proof.
  intros U. unfold list_future_pools. rewrite map_map. cbn [v_id v_row].
  now apply NoDup_map_filter.
Qed.

Lemma listed_inv fromisoformat now st v :
  In v (list_future_pools fromisoformat now st) ->
  In (v_row v) (pools st)
  /\ is_future fromisoformat now (v_row v) = true
  /\ v_members v = get_member_list st (v_id v)
  /\ v_distance_km v = None.
Proof.
  unfold list_future_pools. intros H.
  apply in_map_iff in H as [p [<- Hp]]. apply filter_In in Hp as [Hp F].
  cbn [v_row v_members v_distance_km]. auto.
Qed.

Lemma list_after_cleanup fromisoformat now st :
  pool_ids_unique st ->
  list_future_pools fromisoformat now (cleanup_expired_pools fromisoformat now st)
  = list_future_pools fromisoformat now st.
Proof.
  intros U. unfold list_future_pools at 1 2.
  assert (filter (is_future fromisoformat now)
                 (pools (cleanup_expired_pools fromisoformat now st))
          = filter (is_future fromisoformat now) (pools st)) as ->.
  { rewrite (cleanup_result _ _ _ U). cbn [pools]. rewrite filter_filter.
    apply filter_ext_in'. intros p _.
    destruct (is_future fromisoformat now p) eqn:F; [|apply andb_false_r].
    now rewrite (is_future_not_passed _ _ _ F). }
  apply map_ext_in. intros p Hp. apply filter_In in Hp as [Hp F].
  now rewrite (cleanup_keeps_live_members _ _ _ _ U Hp
                 (is_future_not_passed _ _ _ F)).
Qed.

Lemma already_iff st usr v :
  v_members v = get_member_list st (v_id v) ->
  existsb (fun m => (snd m =? u_email usr)%string) (v_members v) = true
  <-> is_member st (v_id v) (u_email usr).
Proof.
  intros ->. unfold get_member_list, select_members, is_member.
  rewrite existsb_exists. split.
  - intros [x [Hin E]]. apply in_map_iff in Hin as [m [<- Hm]].
    apply filter_In in Hm as [Hm Hid]. cbn [snd] in E.
    apply String.eqb_eq in E. apply String.eqb_eq in Hid. eauto.
  - intros [m (Hm & Hid & E)]. exists (m_name m, m_email m). split.
    + apply in_map_iff. exists m. split; auto. apply filter_In. split; auto.
      now apply String.eqb_eq.
    + cbn [snd]. now apply String.eqb_eq.
Qed.

(** X16.  The button on a card tells what the click will do.  For a card of
    the list just made from the store: [Leave] is shown exactly to the
    members of the pool, in both applications alike; where [Join] is shown,
    [join_pool] at that instant answers "Joined"; where [Full] is shown, it
    answers "Pool is full"; and where [Delete] is shown, [delete_pool]
    answers true. *)
Theorem card_button_tells_the_outcome
        (fromisoformat : string -> option Z) (now : Z) (st : db) (usr : user)
        (v : pool_view) :
  pool_ids_unique st ->
  In v (list_future_pools fromisoformat now st) ->
  card_button_preset st usr v = card_button_pool st usr v
  /\ (card_button_pool st usr v = LeaveButton
      <-> is_member st (v_id v) (u_email usr))
  /\ (card_button_pool st usr v = JoinButton ->
      join_pool fromisoformat now st (v_id v) (u_name usr) (u_email usr)
      = Return (mk_db (pools st)
                      (members st
                       ++ [mk_member (v_id v) (u_name usr) (u_email usr)])
                      (messages st),
                (true, "Joined")))
  /\ (card_button_pool st usr v = FullButton ->
      join_pool fromisoformat now st (v_id v) (u_name usr) (u_email usr)
      = Return (st, (false, "Pool is full")))
  /\ (delete_button usr v = true ->
      snd (delete_pool st (v_id v) (u_email usr)) = true).
Proof.
  intros U Hv. apply listed_inv in Hv as (Hp & F & Hm & _).
  pose proof (already_iff st usr v Hm) as A.
  pose proof (select_pool_unique st (v_row v) U Hp) as S. fold (v_id v) in S.
  pose proof (is_future_not_passed _ _ _ F) as T.
  assert (is_user_member st (v_id v) (u_email usr)
          = existsb (fun m => (snd m =? u_email usr)%string) (v_members v)) as Same.
  { destruct (existsb _ (v_members v)) eqn:E.
    - apply is_user_member_true, A. reflexivity.
    - destruct (is_user_member st (v_id v) (u_email usr)) eqn:I; auto.
      apply is_user_member_true, A in I. congruence. }
  unfold card_button_preset, card_button_pool. rewrite Same.
  split; [reflexivity|].
  destruct (existsb _ (v_members v)) eqn:E.
  { split; [|split; [|split]]; try discriminate.
    - split; [intros _; now apply A | reflexivity].
    - intros D. unfold delete_pool. rewrite S. unfold delete_button in D.
      now rewrite D. }
  assert (select_member st (v_id v) (u_email usr) = None) as N.
  { apply select_member_none. intros M. apply A in M. congruence. }
  split; [|split; [|split]].
  - split.
    + destruct (count_members st (v_id v) <? p_seats (v_row v)); discriminate.
    + intros M. apply A in M. congruence.
  - destruct (count_members st (v_id v) <? p_seats (v_row v)) eqn:C;
      [|discriminate].
    intros _. unfold join_pool. rewrite N, S, T.
    apply Z.ltb_lt, Z.leb_gt in C. rewrite C.
    unfold insert_member. cbn [m_pool_id m_email]. now rewrite N.
  - destruct (count_members st (v_id v) <? p_seats (v_row v)) eqn:C;
      [discriminate|].
    intros _. unfold join_pool. rewrite N, S, T.
    apply Z.ltb_ge, Z.leb_le in C. now rewrite C.
  - intros D. unfold delete_pool. rewrite S. unfold delete_button in D.
    now rewrite D.
Qed.

Lemma card_button_tells_the_outcome_witness :
  card_button_pool db_two_rides alice
    (mk_view one_ride [("Bob", "bob@hyderabad.bits-pilani.ac.in")] None)
  = JoinButton
  /\ join_pool iso_parse ten_o_clock db_two_rides (p_id one_ride) "Alice"
               (u_email alice)
     = Return (mk_db (pools db_two_rides)
                     (members db_two_rides
                      ++ [mk_member (p_id one_ride) "Alice" (u_email alice)])
                     [],
               (true, "Joined")).
Proof.
  assert (In (mk_view one_ride [("Bob", "bob@hyderabad.bits-pilani.ac.in")] None)
             (list_future_pools iso_parse ten_o_clock db_two_rides)) as Hv
      by (vm_compute; right; left; reflexivity).
  destruct (card_button_tells_the_outcome iso_parse ten_o_clock db_two_rides alice
              _ pool_ids_unique_db_two_rides Hv) as (_ & _ & J & _).
  split; [reflexivity|]. exact (J eq_refl).
Defined.

Lemma in_cond_filter {A : Type} (c : bool) (f : A -> bool) (l : list A) (x : A) :
  In x (if c then filter f l else l) <-> In x l /\ (c = true -> f x = true).
Proof.
  destruct c.
  - rewrite filter_In. intuition.
  - intuition discriminate.
Qed.

Lemma cond_filter_nodup {A B : Type} (g : A -> B) (c : bool) (f : A -> bool) l :
  NoDup (map g l) -> NoDup (map g (if c then filter f l else l)).
Proof. destruct c; auto. apply NoDup_map_filter. Qed.

(** X17.  The list that poolpreset.py renders holds exactly the listed pools
    that pass the three filters (the pool just deleted, the destination
    box, the pickup box, the two boxes without regard to case and to blanks
    at the ends), each once, ordered by their [when_iso] text; the [pool]
    parameter of the link changes neither which cards are shown nor their
    order. *)
Theorem preset_list_is_filtered_and_chronological
        (fromisoformat : string -> option Z) (now : Z) (st : db)
        (prune focus : option string) (dest_choice pickup_choice : string) :
  pool_ids_unique st ->
  let shown := snd (PoolPreset.pools_list_ui fromisoformat now st prune focus
                                             dest_choice pickup_choice) in
  chronological shown
  /\ NoDup (map v_id shown)
  /\ (forall v,
         In v shown <->
         In v (list_future_pools fromisoformat now st)
         /\ (forall d, prune = Some d -> d <> "" -> v_id v <> d)
         /\ (dest_choice <> "All destinations" ->
             PoolPreset.same_choice (p_destination_name (v_row v)) dest_choice
             = true)
         /\ (pickup_choice <> "Any pickup" ->
             PoolPreset.same_choice (p_pickup (v_row v)) pickup_choice = true))
  /\ Permutation shown
       (snd (PoolPreset.pools_list_ui fromisoformat now st prune None
                                      dest_choice pickup_choice)).
Proof.
  intros U. unfold PoolPreset.pools_list_ui. cbn [snd].
  rewrite (list_after_cleanup _ _ _ U).
  set (l0 := list_future_pools fromisoformat now st).
  set (l1 := match prune with
             | Some d => if truthy d
                         then filter (fun p => negb (v_id p =? d)%string) l0
                         else l0
             | None => l0
             end).
  set (l2 := if negb (dest_choice =? "All destinations")%string
             then filter (fun p => PoolPreset.same_choice
                                     (p_destination_name (v_row p)) dest_choice) l1
             else l1).
  set (l3 := if negb (pickup_choice =? "Any pickup")%string
             then filter (fun p => PoolPreset.same_choice
                                     (p_pickup (v_row p)) pickup_choice) l2
             else l2).
  assert (NoDup (map v_id l0)) as N0 by now apply listed_ids_nodup.
  assert (NoDup (map v_id l1)) as N1.
  { subst l1. destruct prune as [d|]; auto. now apply cond_filter_nodup. }
  assert (NoDup (map v_id l3)) as N3
      by (subst l3 l2; now apply cond_filter_nodup, cond_filter_nodup).
  assert (Permutation (sort_chronological (focus_to_top focus l3)) l3) as P.
  { rewrite sort_chronological_perm. now apply focus_to_top_perm. }
  cbv zeta. split; [apply sort_chronological_in_order|].
  split; [|split].
  - apply (Permutation_NoDup (l := map v_id l3)); auto.
    apply Permutation_map. now symmetry.
  - intros v. rewrite (Permutation_in' (eq_refl v) P).
    subst l3 l2. rewrite !in_cond_filter, !negb_true_iff, !String.eqb_neq.
    assert (In v l1 <-> In v l0 /\ (forall d, prune = Some d -> d <> "" ->
                                              v_id v <> d)) as ->.
    { subst l1. destruct prune as [d|].
      - rewrite in_cond_filter. unfold truthy.
        rewrite negb_true_iff, String.eqb_neq. split.
        + intros [H1 H2]. split; auto. intros d' E Hd. injection E as <-.
          specialize (H2 Hd). now apply negb_true_iff, String.eqb_neq in H2.
        + intros [H1 H2]. split; auto. intros Hd.
          apply negb_true_iff, String.eqb_neq. now apply H2.
      - split; [|tauto]. intros H. split; auto. discriminate. }
    tauto.
  - rewrite P. symmetry. cbn [focus_to_top]. apply sort_chronological_perm.
Qed.

Lemma preset_list_is_filtered_and_chronological_witness :
  chronological
    (snd (PoolPreset.pools_list_ui iso_parse ten_o_clock db_two_rides None
                                   (Some (p_id one_ride)) "All destinations"
                                   " bphc main gate")).
Proof.
  exact (proj1 (preset_list_is_filtered_and_chronological iso_parse ten_o_clock
                  db_two_rides None (Some (p_id one_ride)) "All destinations"
                  " bphc main gate" pool_ids_unique_db_two_rides)).
Defined.

Lemma time_filter_total fromisoformat target_dt l :
  (forall v, In v l -> fromisoformat (p_when_iso (v_row v)) <> None) ->
  Pool.time_filter fromisoformat target_dt l
  = Return (filter (within_window fromisoformat target_dt) l).
Proof.
  induction l as [|v l IH]; intros H; [reflexivity|].
  cbn [Pool.time_filter filter]. unfold within_window at 1.
  destruct (fromisoformat (p_when_iso (v_row v))) as [t|] eqn:E.
  - rewrite IH by (intros x Hx; apply H; now right). reflexivity.
  - exfalso. apply (H v); [now left | exact E].
Qed.

(** X18.  With no target place picked, [pools_list_ui] of pool.py does not
    fail in the [fromisoformat] of its time filter, the one call of that path
    that is not guarded: the cards it filters come from [list_future_pools],
    whose departure texts were read before.  What it renders is then a
    rearrangement of the listed pools that lie within fifteen minutes of the
    target time when the time filter is on, and of all the listed pools when
    it is off, in the order of [when_iso]. *)
Theorem pool_list_time_filter_never_raises
        (fromisoformat : string -> option Z)
        (haversine_km : Pool.coords -> Pool.coords -> Q)
        (now : Z) (st : db) (focus : option string) (target_dt : option Z) :
  pool_ids_unique st ->
  exists shown,
    snd (Pool.pools_list_ui fromisoformat haversine_km now st focus target_dt None)
    = Return shown
    /\ Permutation
         shown
         (filter (fun v => match target_dt with
                           | Some t => within_window fromisoformat t v
                           | None => true
                           end)
                 (list_future_pools fromisoformat now st))
    /\ chronological shown.
Proof.
  intros U. unfold Pool.pools_list_ui. cbn [snd].
  rewrite (list_after_cleanup _ _ _ U).
  set (l0 := list_future_pools fromisoformat now st).
  assert (Permutation (focus_to_top focus l0) l0) as P0
      by (apply focus_to_top_perm; now apply listed_ids_nodup).
  assert (forall v, In v (focus_to_top focus l0) ->
                    fromisoformat (p_when_iso (v_row v)) <> None) as Readable.
  { intros v Hv. apply (Permutation_in _ P0) in Hv.
    apply listed_inv in Hv as (_ & F & _). unfold is_future in F.
    destruct (fromisoformat (p_when_iso (v_row v))); [discriminate | discriminate F]. }
  set (w := fun v => match target_dt with
                     | Some t => within_window fromisoformat t v
                     | None => true
                     end).
  assert (exists l1,
             match target_dt with
             | Some t => Pool.time_filter fromisoformat t (focus_to_top focus l0)
             | None => Return (focus_to_top focus l0)
             end = Return l1
             /\ Permutation l1 (filter w l0)) as (l1 & -> & P1).
  { destruct target_dt as [t|].
    - rewrite (time_filter_total _ _ _ Readable). eexists. split; [reflexivity|].
      now apply perm_filter.
    - exists (focus_to_top focus l0). split; [reflexivity|].
      subst w. cbn beta. rewrite filter_all by reflexivity. exact P0. }
  cbn [bind]. eexists. split; [reflexivity|]. split.
  - rewrite (sort_chronological_perm _). exact P1.
  - apply sort_chronological_in_order.
Qed.

Lemma pool_list_time_filter_never_raises_witness :
  exists shown,
    snd (Pool.pools_list_ui iso_parse (fun _ _ => 0%Q) ten_o_clock db_two_rides
                            (Some (p_id one_ride))
                            (Some (ten_o_clock + 2 * one_hour + 15 * one_minute))
                            None)
    = Return shown
    /\ chronological shown.
Proof.
  destruct (pool_list_time_filter_never_raises iso_parse (fun _ _ => 0%Q)
              ten_o_clock db_two_rides (Some (p_id one_ride))
              (Some (ten_o_clock + 2 * one_hour + 15 * one_minute))
              pool_ids_unique_db_two_rides) as (shown & E & _ & C).
  exists shown. split; [exact E | exact C].
Defined.

(** ** The chat *)

Lemma list_messages_unfold st pool_id limit :
  list_messages st pool_id limit
  = sql_limit limit
      (sort_by String.ltb g_created_at
         (filter (fun g => (g_pool_id g =? pool_id)%string) (messages st))).
Proof. reflexivity. Qed.

Lemma sql_limit_incl {A : Type} (n : Z) (l : list A) x :
  In x (sql_limit n l) -> In x l.
Proof.
  unfold sql_limit. destruct (n <? 0); auto.
  intros H. rewrite <- (firstn_skipn (Z.to_nat n) l).
  apply in_or_app. now left.
Qed.

(** X19.  [list_messages] returns messages of the asked pool only, each one
    a row of the store, ordered by [created_at]; never more than a limit that
    is not negative; and all the messages of the pool when the limit is
    negative or is not below their number. *)
Theorem list_messages_of_one_pool (st : db) (pool_id : string) (limit : Z) :
  let shown := list_messages st pool_id limit in
  let of_pool :=
    filter (fun g => (g_pool_id g =? pool_id)%string) (messages st) in
  (forall g, In g shown -> In g (messages st) /\ g_pool_id g = pool_id)
  /\ in_order String.ltb g_created_at shown
  /\ (0 <= limit -> Z.of_nat (List.length shown) <= limit)
  /\ (limit < 0 \/ Z.of_nat (List.length of_pool) <= limit ->
      Permutation shown of_pool).
Proof.
  cbv zeta. rewrite list_messages_unfold.
  set (of_pool := filter (fun g => (g_pool_id g =? pool_id)%string) (messages st)).
  pose proof (sort_by_perm String.ltb g_created_at of_pool) as P.
  split; [|split; [|split]].
  - intros g Hg. apply sql_limit_incl in Hg. apply (Permutation_in _ P) in Hg.
    subst of_pool. apply filter_In in Hg as [H1 H2].
    apply String.eqb_eq in H2. auto.
  - unfold sql_limit. destruct (limit <? 0).
    + apply sort_by_in_order, string_ltb_asym.
    + apply in_order_firstn, sort_by_in_order, string_ltb_asym.
  - intros H. unfold sql_limit.
    destruct (limit <? 0) eqn:L; [apply Z.ltb_lt in L; lia|].
    rewrite length_firstn. lia.
  - intros H. unfold sql_limit. destruct (limit <? 0) eqn:L; [exact P|].
    rewrite firstn_all2; [exact P|].
    rewrite (Permutation_length P). apply Z.ltb_ge in L. lia.
Qed.

Lemma add_message_inv isoformat now st pool_id sender_name sender_email content st' :
  add_message isoformat now st pool_id sender_name sender_email content = Return st' ->
  st' = mk_db (pools st) (members st)
              (messages st
               ++ [mk_message ("msg_" ++ str_of_int (epoch_millis now)) pool_id
                              sender_email sender_name content (isoformat now)]).
Proof.
  unfold add_message, insert_message, now_iso.
  destruct (existsb _ _); [discriminate|]. intros E. now injection E as <-.
Qed.

(** X20.  Sending a chat message.  A blank text stores nothing.  Any other
    text is stored stripped, with the sender and the time, and touches neither
    pools nor members; it then shows in [list_messages] of its pool whenever
    the limit leaves room for all the messages of the pool.  The id of a
    message is the millisecond of the click: a second message in the same
    millisecond, by anyone and in any pool, is not stored and raises. *)
Theorem chat_send_stores_the_message
        (isoformat : Z -> string) (now : Z) (st : db) (usr : user)
        (pool_id text : string) :
  (blank text -> chat_send isoformat now st usr pool_id text = Return st)
  /\ (forall st',
         ~ blank text ->
         chat_send isoformat now st usr pool_id text = Return st' ->
         let sent := mk_message ("msg_" ++ str_of_int (epoch_millis now)) pool_id
                                (u_email usr) (u_name usr) (strip text)
                                (isoformat now) in
         st' = mk_db (pools st) (members st) (messages st ++ [sent])
         /\ (forall limit,
                limit < 0
                \/ Z.of_nat (List.length
                               (filter (fun g => (g_pool_id g =? pool_id)%string)
                                       (messages st'))) <= limit ->
                In sent (list_messages st' pool_id limit))
         /\ (forall now' usr' pool_id' text',
                epoch_millis now' = epoch_millis now -> ~ blank text' ->
                chat_send isoformat now' st' usr' pool_id' text'
                = Raise IntegrityError)).
Proof.
  split.
  - intros B. unfold chat_send. apply truthy_blank in B. now rewrite B.
  - intros st' NB E. unfold chat_send in E.
    apply truthy_not_blank in NB. rewrite NB in E.
    apply add_message_inv in E. cbv zeta. split; [exact E|]. split.
    + intros limit H. rewrite list_messages_unfold.
      set (of_pool := filter (fun g => (g_pool_id g =? pool_id)%string)
                             (messages st')) in *.
      pose proof (sort_by_perm String.ltb g_created_at of_pool) as P.
      assert (In (mk_message ("msg_" ++ str_of_int (epoch_millis now)) pool_id
                             (u_email usr) (u_name usr) (strip text)
                             (isoformat now)) of_pool) as Hin.
      { subst of_pool. rewrite E. cbn [messages]. apply filter_In. split.
        - apply in_app_iff. right. now left.
        - cbn [g_pool_id]. apply String.eqb_refl. }
      apply (Permutation_in _ (Permutation_sym P)) in Hin.
      unfold sql_limit. destruct (limit <? 0) eqn:L; [exact Hin|].
      rewrite firstn_all2; [exact Hin|].
      rewrite (Permutation_length P). apply Z.ltb_ge in L. lia.
    + intros now' usr' pool_id' text' M NB'. unfold chat_send.
      apply truthy_not_blank in NB'. rewrite NB'.
      unfold add_message, insert_message. cbn [g_id]. rewrite M.
      assert (existsb (fun g' => (g_id g' =? "msg_" ++ str_of_int (epoch_millis now))%string)
                      (messages st') = true) as ->; [|reflexivity].
      apply existsb_exists. eexists. split.
      * rewrite E. cbn [messages]. apply in_app_iff. right. left. reflexivity.
      * cbn [g_id]. apply String.eqb_refl.
Qed.

Lemma chat_send_stores_the_message_witness :
  chat_send iso_format ten_o_clock db_noon bob (p_id noon_ride) "   " = Return db_noon.
Proof.
  exact (proj1 (chat_send_stores_the_message iso_format ten_o_clock db_noon bob
                  (p_id noon_ride) "   ") eq_refl).
Defined.

(** ** Names and addresses *)

Lemma lstrip_underscore_cons c r :
  PoolPreset.lstrip_underscore (String c r)
  = if (c =? "_")%char then PoolPreset.lstrip_underscore r else String c r.
Proof. destruct c as [[] [] [] [] [] [] [] []]; reflexivity. Qed.

Lemma sub_runs_chars f b s :
  (forall c, PoolPreset.is_slug_char c = true -> f c = true) ->
  f "_"%char = true ->
  string_forall f (PoolPreset.sub_runs b s) = true.
Proof.
  intros Hf Hu. revert b. induction s as [|c s IH]; intros b; [reflexivity|].
  cbn [PoolPreset.sub_runs]. destruct (PoolPreset.is_slug_char c) eqn:E.
  - cbn [string_forall]. now rewrite (Hf c E), IH.
  - destruct b; [apply IH|]. cbn [string_forall]. now rewrite Hu, IH.
Qed.

Lemma lstrip_underscore_chars f s :
  string_forall f s = true ->
  string_forall f (PoolPreset.lstrip_underscore s) = true.
Proof.
  induction s as [|c s IH]; intros H; [reflexivity|].
  rewrite lstrip_underscore_cons. destruct (c =? "_")%char; [|exact H].
  apply IH. cbn [string_forall] in H. now apply andb_true_iff in H.
Qed.

Lemma rstrip_underscore_chars f s :
  string_forall f s = true ->
  string_forall f (PoolPreset.rstrip_underscore s) = true.
Proof.
  induction s as [|c s IH]; intros H; [reflexivity|].
  cbn [string_forall] in H. apply andb_true_iff in H as [Hc Hs].
  cbn [PoolPreset.rstrip_underscore]. specialize (IH Hs).
  destruct (PoolPreset.rstrip_underscore s) as [|d t].
  - destruct (c =? "_")%char; [reflexivity|]. cbn [string_forall]. now rewrite Hc.
  - cbn [string_forall] in *. now rewrite Hc, IH.
Qed.

Lemma lstrip_underscore_head s r :
  PoolPreset.lstrip_underscore s <> String "_" r.
Proof.
  induction s as [|c s IH]; [discriminate|].
  rewrite lstrip_underscore_cons. destruct (Ascii.eqb_spec c "_") as [_ | N]; auto.
  intros E. injection E as E _. contradiction.
Qed.

Lemma rstrip_underscore_head s :
  (forall r, s <> String "_" r) ->
  forall r, PoolPreset.rstrip_underscore s <> String "_" r.
Proof.
  destruct s as [|c s]; [discriminate|]. intros H r.
  cbn [PoolPreset.rstrip_underscore].
  destruct (PoolPreset.rstrip_underscore s) as [|d t].
  - destruct (c =? "_")%char; [discriminate|].
    intros E. injection E as -> _. now apply (H s).
  - intros E. injection E as -> _. now apply (H s).
Qed.

Lemma rstrip_underscore_last s r :
  PoolPreset.rstrip_underscore s <> r ++ "_".
Proof.
  revert r. induction s as [|c s IH]; intros r.
  - destruct r; discriminate.
  - cbn [PoolPreset.rstrip_underscore].
    destruct (PoolPreset.rstrip_underscore s) as [|d t].
    + destruct (Ascii.eqb_spec c "_") as [_ | N].
      * destruct r; discriminate.
      * destruct r as [|e r]; cbn [append].
        -- intros E. injection E as E. contradiction.
        -- intros E. injection E as _ E. destruct r; discriminate.
    + destruct r as [|e r]; cbn [append]; [discriminate|].
      intros E. injection E as _ E. now apply (IH r).
Qed.

(** X21.  [_slug] turns any name into an identifier: the result has only the
    characters a-z, 0-9 and the underscore, and neither begins nor ends with
    an underscore. *)
Theorem slug_is_an_identifier (s : string) :
  string_forall (fun c => PoolPreset.is_slug_char c || (c =? "_")%char)
                (PoolPreset.slug s) = true
  /\ (forall r, PoolPreset.slug s <> String "_" r)
  /\ (forall r, PoolPreset.slug s <> r ++ "_").
Proof.
  unfold PoolPreset.slug. split; [|split].
  - apply rstrip_underscore_chars, lstrip_underscore_chars, sub_runs_chars.
    + intros c ->. reflexivity.
    + reflexivity.
  - apply rstrip_underscore_head. intros r. apply lstrip_underscore_head.
  - intros r. apply rstrip_underscore_last.
Qed.

Lemma lower_ascii_idem c : lower_ascii (lower_ascii c) = lower_ascii c.
Proof. destruct c as [[] [] [] [] [] [] [] []]; reflexivity. Qed.

Lemma lower_idem s : lower (lower s) = lower s.
Proof.
  induction s as [|c s IH]; [reflexivity|].
  cbn [lower]. now rewrite lower_ascii_idem, IH.
Qed.

Lemma lower_split s a b :
  lower s = a ++ b ->
  exists a' b', s = a' ++ b' /\ lower a' = a /\ lower b' = b.
Proof.
  revert s. induction a as [|c a IH]; intros s E.
  - exists "", s. auto.
  - destruct s as [|d s]; [discriminate|].
    cbn [lower append] in E. injection E as Ec Es.
    destruct (IH s Es) as (a' & b' & -> & Ha & Hb).
    exists (String d a'), b'. cbn [lower append]. repeat split; auto.
    now rewrite Ec, Ha.
Qed.

Lemma ends_with_iff suffix s :
  ends_with suffix s = true <-> exists pre, s = pre ++ suffix.
Proof.
  induction s as [|c s IH]; cbn [ends_with].
  - rewrite orb_false_r, String.eqb_eq. split.
    + intros <-. now exists "".
    + intros [pre E]. destruct pre; [exact E | discriminate].
  - rewrite orb_true_iff, String.eqb_eq, IH. split.
    + intros [<- | [pre ->]]; [now exists "" | now exists (String c pre)].
    + intros [pre E]. destruct pre as [|d pre]; cbn [append] in E.
      * now left.
      * right. injection E as _ ->. now exists pre.
Qed.

Lemma is_bits_email_iff email :
  is_bits_email email = true
  <-> exists pre w, strip email = pre ++ w /\ lower w = BITS_SUFFIX.
Proof.
  unfold is_bits_email. rewrite ends_with_iff. split.
  - intros [pre E]. apply lower_split in E as (a & b & E & _ & Hb). eauto.
  - intros (pre & w & -> & Hw). exists (lower pre). now rewrite lower_app, Hw.
Qed.

(** X22.  For a name and an email in ASCII, the manual sign-in form lets a
    user in exactly when the name is not blank and the email, stripped, ends
    with [@hyderabad.bits-pilani.ac.in] in any mix of upper and lower case;
    what stands before that ending is not looked at.  The user who is let in
    has the stripped name, and an email in lower case that ends with the
    ending as written.  (Outside ASCII the pattern of the source admits more:
    see [is_bits_email].) *)
Theorem email_gate_checks_the_ending_only (name email : string) (u : user) :
  is_ascii name = true ->
  is_ascii email = true ->
  (email_gate_enter name email = gate_user u
   <-> ~ blank name
       /\ (exists pre w, strip email = pre ++ w /\ lower w = BITS_SUFFIX)
       /\ u = mk_user (strip name) (lower (strip email)))
  /\ (email_gate_enter name email = gate_user u ->
      u_name u <> ""
      /\ lower (u_email u) = u_email u
      /\ exists pre, u_email u = pre ++ BITS_SUFFIX).
Proof.
  intros _ _.
  assert (email_gate_enter name email = gate_user u
          <-> ~ blank name
              /\ (exists pre w, strip email = pre ++ w /\ lower w = BITS_SUFFIX)
              /\ u = mk_user (strip name) (lower (strip email))) as G.
  { rewrite <- is_bits_email_iff, <- truthy_not_blank. unfold email_gate_enter.
    destruct (truthy (strip name)); cbn [negb].
    - destruct (is_bits_email email); cbn [negb].
      + split; [intros E; injection E as <-; auto | intros (_ & _ & ->); reflexivity].
      + split; [discriminate | intros (_ & E & _); discriminate].
    - split; [discriminate | intros (E & _); discriminate]. }
  split; [exact G|].
  intros E. apply G in E as (NB & (pre & w & Es & Hw) & ->). cbn [u_name u_email].
  split; [exact NB|]. split; [apply lower_idem|].
  exists (lower pre). now rewrite Es, lower_app, Hw.
Qed.

Lemma email_gate_checks_the_ending_only_witness :
  email_gate_enter " Asha " "  f2023@evil.example@Hyderabad.BITS-Pilani.ac.in "
  = gate_user (mk_user "Asha" "f2023@evil.example@hyderabad.bits-pilani.ac.in").
Proof.
  assert (is_ascii " Asha " = true) as A1 by reflexivity.
  assert (is_ascii "  f2023@evil.example@Hyderabad.BITS-Pilani.ac.in " = true) as A2
      by reflexivity.
  apply (proj1 (email_gate_checks_the_ending_only " Asha "
                  "  f2023@evil.example@Hyderabad.BITS-Pilani.ac.in "
                  (mk_user "Asha" "f2023@evil.example@hyderabad.bits-pilani.ac.in")
                  A1 A2)).
  split; [vm_compute; discriminate|]. split; [|reflexivity].
  exists "f2023@evil.example", "@Hyderabad.BITS-Pilani.ac.in".
  split; reflexivity.
Defined.
